(** * Accessibility behaviour wiring of django-sozluk

    A shallow embedding of
    [dictionary/static/dictionary/js/accessibility.js]: the six event
    bindings that the script registers when the page loads, the page
    state they act on, and the properties of the handlers.

    The page is a store of elements addressed by their position in
    document order; every function expression of the script is one
    constructor of [closure]; the script's outputs (notifications,
    navigation, synthetic events) are appended to a log. *)

From Stdlib Require Import ZArith NArith Lia.
From stdpp Require Import base option list strings gmap pretty.

Open Scope string_scope.

(** ** JavaScript values *)

(** The function expressions of accessibility.js, in source order.  An
    arrow function that mentions [this] closes over the element its
    enclosing function was called on. *)
Inductive closure :=
  | KeypressListener                  (* line 5:  event => { if (...) ... } *)
  | SkipperListener                   (* line 12: function () { location.replace(...) } *)
  | InvalidResetListener              (* line 16: function () { this.classList.remove(...) } *)
  | ExpandFocusListener               (* line 20: function () { this.style.height = ... } *)
  | TransitionEndListener (this : nat) (* line 22: () => { this.style.transition = "none" } *)
  | ArmGuardListener                  (* line 27: function () { window.onbeforeunload = ... } *)
  | ValueGuard (this : nat)           (* line 28: () => this.value || null *)
  | SubmitListener                    (* line 31: function (event) { ... } *)
  | AlwaysGuard.                      (* line 39: () => true *)

Inductive jsval :=
  | JUndefined
  | JNull
  | JBool (b : bool)
  | JNum (n : Z)
  | JStr (s : string)
  | JFun (c : closure).

#[global] Instance closure_eq_dec : EqDecision closure.
Proof. solve_decision. Defined.

#[global] Instance jsval_eq_dec : EqDecision jsval.
Proof. solve_decision. Defined.

(** ToBoolean. *)
Definition truthy (v : jsval) : bool :=
  match v with
  | JUndefined | JNull => false
  | JBool b => b
  | JNum n => negb (n =? 0)%Z
  | JStr s => negb (bool_decide (s = ""))
  | JFun _ => true
  end.

(** [a || b] *)
Definition js_or (a b : jsval) : jsval := if truthy a then a else b.

(** [a === b] *)
Definition strict_eq (a b : jsval) : bool := bool_decide (a = b).

(** ** Elements and selectors *)

Record element := Element {
  tagName : string;                   (* lower-case local name *)
  parentNode : option nat;
  attributes : gmap string string;    (* every attribute but class and style *)
  classList : list string;            (* the class attribute *)
  value : jsval;                      (* JUndefined where the element has no such property *)
  offsetHeight : N;                   (* as last laid out; read-only for scripts *)
  style_height : string;              (* style.height, "" when unset *)
  style_transition : string           (* style.transition, "" when unset *)
}.

(** A compound selector [tag#id.class[attr=v]]; a selector is a
    comma-separated list of them. *)
Record compound := Compound {
  c_tag : option string;
  c_id : option string;
  c_classes : list string;
  c_attrs : list (string * string)
}.

Definition selector := list compound.

Definition compound_matches (e : element) (c : compound) : bool :=
  from_option (fun t => bool_decide (tagName e = t)) true (c_tag c)
  && from_option (fun i => bool_decide (attributes e !! "id" = Some i)) true (c_id c)
  && forallb (fun k => bool_decide (k ∈ classList e)) (c_classes c)
  && forallb (fun kv => bool_decide (attributes e !! kv.1 = Some kv.2)) (c_attrs c).

Definition element_matches (e : element) (s : selector) : bool :=
  existsb (compound_matches e) s.

(** The selectors that occur in the script. *)

(* "[role=button], .key-clickable" *)
Definition sel_key_clickable : selector :=
  [ Compound None None [] [("role", "button")];
    Compound None None ["key-clickable"] [] ].

(* "body" *)
Definition sel_body : selector := [ Compound (Some "body") None [] [] ].

(* ".content-skipper" *)
Definition sel_content_skipper : selector :=
  [ Compound None None ["content-skipper"] [] ].

(* "input.is-invalid" *)
Definition sel_input_invalid : selector :=
  [ Compound (Some "input") None ["is-invalid"] [] ].

(* "textarea.expandable" *)
Definition sel_textarea_expandable : selector :=
  [ Compound (Some "textarea") None ["expandable"] [] ].

(* "textarea#user_content_edit, textarea#message-body" *)
Definition sel_guarded_textarea : selector :=
  [ Compound (Some "textarea") (Some "user_content_edit") [] [];
    Compound (Some "textarea") (Some "message-body") [] [] ].

(* "form" *)
Definition sel_form : selector := [ Compound (Some "form") None [] [] ].

(* "#user_content_edit" *)
Definition sel_user_content_edit : selector :=
  [ Compound None (Some "user_content_edit") [] [] ].

(** ** Events, listeners, the page *)

Record event := Event {
  ev_type : string;
  target : nat;
  key : jsval;                        (* JUndefined unless a keyboard event *)
  bubbles : bool;
  defaultPrevented : bool
}.

Record listener := Listener {
  l_node : nat;
  l_type : string;
  l_callback : closure;
  l_once : bool
}.

#[global] Instance listener_eq_dec : EqDecision listener.
Proof. solve_decision. Defined.

(** What the script does to the world outside the element store. *)
Inductive effect :=
  | Notified (message severity : string)     (* notify(message, severity) *)
  | Replaced (url : jsval)                   (* location.replace(url) *)
  | Dispatched (node : nat) (type : string). (* node.dispatchEvent(new Event(type)) *)

#[global] Instance effect_eq_dec : EqDecision effect.
Proof. solve_decision. Defined.

Record page := Page {
  nodes : list element;               (* in document order *)
  listeners : list listener;          (* in registration order *)
  onbeforeunload : jsval;             (* window.onbeforeunload *)
  effects : list effect               (* oldest first *)
}.

Definition set_nodes (ns : list element) (p : page) : page :=
  Page ns (listeners p) (onbeforeunload p) (effects p).

Definition set_listeners (ls : list listener) (p : page) : page :=
  Page (nodes p) ls (onbeforeunload p) (effects p).

Definition set_onbeforeunload (v : jsval) (p : page) : page :=
  Page (nodes p) (listeners p) v (effects p).

Definition emit (x : effect) (p : page) : page :=
  Page (nodes p) (listeners p) (onbeforeunload p) (effects p ++ [x]).

Definition update_node (n : nat) (f : element -> element) (p : page) : page :=
  set_nodes (alter f n (nodes p)) p.

(** ** DOM reads *)

(** [n.matches(s)] *)
Definition matches (p : page) (n : nat) (s : selector) : bool :=
  from_option (fun e => element_matches e s) false (nodes p !! n).

(** [n.value] *)
Definition get_value (p : page) (n : nat) : jsval :=
  from_option value JUndefined (nodes p !! n).

(** [n.getAttribute(k)]: the string, or null. *)
Definition getAttribute (p : page) (n : nat) (k : string) : jsval :=
  from_option JStr JNull (nodes p !! n ≫= fun e => attributes e !! k).

Fixpoint ancestors (fuel : nat) (ns : list element) (n : nat) : list nat :=
  match fuel with
  | 0 => []
  | S fuel' =>
      match ns !! n ≫= parentNode with
      | Some m => m :: ancestors fuel' ns m
      | None => []
      end
  end.

Definition is_descendant (p : page) (n root : nat) : bool :=
  bool_decide (root ∈ ancestors (length (nodes p)) (nodes p) n).

(** [root.querySelector(s)]: the first descendant in document order. *)
Definition querySelector (p : page) (root : nat) (s : selector) : option nat :=
  find (fun i => is_descendant p i root && matches p i s)
       (seq 0 (length (nodes p))).

(** ** DOM writes *)

(** [classList.remove(k)] *)
Definition classList_remove (k : string) (e : element) : element :=
  Element (tagName e) (parentNode e) (attributes e)
          (filter (fun c => c ≠ k) (classList e))
          (value e) (offsetHeight e) (style_height e) (style_transition e).

(** [e.style.height = h]: a write to the inline style, which the two
    style fields stand for.  The rendered height follows at the next
    layout, an edit from outside the script ([step_edit]). *)
Definition with_style_height (h : string) (e : element) : element :=
  Element (tagName e) (parentNode e) (attributes e) (classList e)
          (value e) (offsetHeight e) h (style_transition e).

(** [e.style.transition = t] *)
Definition with_style_transition (t : string) (e : element) : element :=
  Element (tagName e) (parentNode e) (attributes e) (classList e)
          (value e) (offsetHeight e) (style_height e) t.

(** [event.preventDefault()] *)
Definition preventDefault (ev : event) : event :=
  Event (ev_type ev) (target ev) (key ev) (bubbles ev) true.

(** [new Event(type)]: not bubbling, no key; [dispatchEvent] sets the target. *)
Definition new_Event (type : string) (tgt : nat) : event :=
  Event type tgt JUndefined false false.

(** ** Event binding *)

(** The first argument of [Handle] and [Handler]: a selector string or
    an element. *)
Inductive node_ref :=
  | Selector (s : selector)
  | Node (n : nat).

Definition all_matches (p : page) (r : node_ref) : list nat :=
  match r with
  | Selector s => filter (fun i => matches p i s = true) (seq 0 (length (nodes p)))
  | Node n => [n]
  end.

Definition first_match (p : page) (r : node_ref) : option nat :=
  head (all_matches p r).

Definition addEventListener (n : nat) (type : string) (cb : closure)
    (once : bool) (p : page) : page :=
  set_listeners (listeners p ++ [Listener n type cb once]) p.

(** Modelled from the spec: [Handle] is imported from ./utils, which is
    not among the sources.  The spec gives it as
    [Handle(selector, eventType, fn, options?)], attaching a listener
    filtered by a CSS selector, dispatching to the first matching
    element; [options] may ask for "run once".  The script also passes
    it an element (line 22). *)
Definition Handle (r : node_ref) (type : string) (cb : closure)
    (once : bool) (p : page) : page :=
  match first_match p r with
  | Some n => addEventListener n type cb once p
  | None => p
  end.

(** Modelled from the spec: [Handler] is imported from ./utils, which
    is not among the sources.  The spec gives it as
    [Handler(selector, eventType, fn, options?)], attaching a listener
    filtered by a CSS selector, dispatching to all matching elements. *)
Definition Handler (r : node_ref) (type : string) (cb : closure)
    (once : bool) (p : page) : page :=
  foldl (fun q n => addEventListener n type cb once q) p (all_matches p r).

(** ** Event dispatch *)

Definition result : Type := page * event * jsval.

Definition listens (n : nat) (type : string) (l : listener) : bool :=
  bool_decide (l_node l = n) && bool_decide (l_type l = type).

Fixpoint remove_first (l : listener) (ls : list listener) : list listener :=
  match ls with
  | [] => []
  | x :: ls' => if decide (x = l) then ls' else x :: remove_first l ls'
  end.

Section Dispatch.
(** How a closure is called: [call c this ev p]; [None] when the
    nesting budget is exhausted. *)
Variable call : closure -> nat -> event -> page -> option result.

(** Modelled from the spec: one-time handlers deregister themselves
    after their first invocation (spec section 5); the listener's
    return value is not used. *)
Fixpoint invoke_all (ls : list listener) (ev : event) (p : page)
    : option (page * event) :=
  match ls with
  | [] => Some (p, ev)
  | l :: ls' =>
      let p1 := if l_once l
                then set_listeners (remove_first l (listeners p)) p
                else p in
      match call (l_callback l) (l_node l) ev p1 with
      | Some (p2, ev2, _) => invoke_all ls' ev2 p2
      | None => None
      end
  end.

(** The event visits its target, then, if it bubbles, each ancestor. *)
Fixpoint propagate (path : list nat) (ev : event) (p : page)
    : option (page * event) :=
  match path with
  | [] => Some (p, ev)
  | n :: path' =>
      match invoke_all (filter (fun l => listens n (ev_type ev) l = true)
                               (listeners p)) ev p with
      | Some (p1, ev1) => propagate path' ev1 p1
      | None => None
      end
  end.

Definition event_path (p : page) (ev : event) : list nat :=
  target ev ::
  (if bubbles ev then ancestors (length (nodes p)) (nodes p) (target ev)
   else []).

Definition dispatch_with (ev : event) (p : page) : option (page * event) :=
  propagate (event_path p ev) ev p.

(** [n.dispatchEvent(mk)] called by the script, [mk] a fresh event. *)
Definition dispatchEvent_with (n : nat) (mk : nat -> event) (p : page)
    : option page :=
  fst <$> dispatch_with (mk n) (emit (Dispatched n (ev_type (mk n))) p).
End Dispatch.

(** ** The handlers of accessibility.js *)

Section Script.
(** The collaborators of the script that live outside it. *)
Variable gettext : string -> string.
Variable isValidText : jsval -> bool.

(* lines 5-10 *)
Definition keypress_handler
    (dispatchEvent : nat -> (nat -> event) -> page -> option page)
    (ev : event) (p : page) : option result :=
  if matches p (target ev) sel_key_clickable
     && (strict_eq (key ev) (JStr " ") || strict_eq (key ev) (JStr "Enter"))
  then
    let ev1 := preventDefault ev in
    match dispatchEvent (target ev1) (new_Event "click") p with
    | Some p1 => Some (p1, ev1, JUndefined)
    | None => None
    end
  else Some (p, ev, JUndefined).

(* lines 12-14 *)
Definition skipper_handler (this : nat) (ev : event) (p : page) : result :=
  (emit (Replaced (getAttribute p this "data-href")) p, ev, JUndefined).

(* lines 16-18 *)
Definition invalid_reset_handler (this : nat) (ev : event) (p : page)
    : result :=
  (update_node this (classList_remove "is-invalid") p, ev, JUndefined).

(* lines 22-24 *)
Definition transition_end_handler (this : nat) (ev : event) (p : page)
    : result :=
  (update_node this (with_style_transition "none") p, ev, JUndefined).

(* lines 20-25 *)
Definition expand_focus_handler (this : nat) (ev : event) (p : page)
    : result :=
  let p1 := update_node this
              (fun e => with_style_height
                          (pretty (offsetHeight e + 150)%N ++ "px") e) p in
  let p2 := Handle (Node this) "transitionend"
              (TransitionEndListener this) false p1 in
  (p2, ev, JUndefined).

(* line 28 *)
Definition value_guard (this : nat) (p : page) : jsval :=
  js_or (get_value p this) JNull.

(* line 39 *)
Definition always_guard : jsval := JBool true.

(* lines 27-29 *)
Definition arm_guard_handler (this : nat) (ev : event) (p : page)
    : result :=
  (set_onbeforeunload (JFun (ValueGuard this)) p, ev, JUndefined).

(* lines 31-44 *)
Definition submit_handler (this : nat) (ev : event) (p : page) : result :=
  let p1 := set_onbeforeunload JNull p in
  match querySelector p1 this sel_user_content_edit with
  | Some userInput =>
      if truthy (get_value p1 userInput) then
        if negb (isValidText (get_value p1 userInput)) then
          let p2 := emit (Notified
                       (gettext "this content includes forbidden characters.")
                       "error") p1 in
          let p3 := set_onbeforeunload (JFun AlwaysGuard) p2 in
          (p3, preventDefault ev, JBool false)
        else (p1, ev, JUndefined)
      else (p1, ev, JUndefined)
  | None => (p1, ev, JUndefined)
  end.

(** Calling a function value of the script.  Only the keypress
    listener dispatches an event of its own; [fuel] bounds that
    nesting. *)
Fixpoint call (fuel : nat) (c : closure) (this : nat) (ev : event)
    (p : page) : option result :=
  match fuel with
  | 0 => None
  | S fuel' =>
      match c with
      | KeypressListener =>
          keypress_handler (dispatchEvent_with (call fuel')) ev p
      | SkipperListener => Some (skipper_handler this ev p)
      | InvalidResetListener => Some (invalid_reset_handler this ev p)
      | ExpandFocusListener => Some (expand_focus_handler this ev p)
      | TransitionEndListener this' =>
          Some (transition_end_handler this' ev p)
      | ArmGuardListener => Some (arm_guard_handler this ev p)
      | ValueGuard this' => Some (p, ev, value_guard this' p)
      | SubmitListener => Some (submit_handler this ev p)
      | AlwaysGuard => Some (p, ev, always_guard)
      end
  end.

(** Two levels are all the script ever needs (see [call_total]). *)
Definition dispatch (ev : event) (p : page) : option (page * event) :=
  dispatch_with (call 2) ev p.

(** What the browser gets from [window.onbeforeunload] when the page
    is about to unload: the value returned by the guard, or [None]
    when the hook does not hold one of the script's two guards. *)
Definition beforeunload (p : page) : option jsval :=
  match onbeforeunload p with
  | JFun (ValueGuard this) => Some (value_guard this p)
  | JFun AlwaysGuard => Some always_guard
  | _ => None
  end.

(** The script itself: the six registrations, run once at load. *)
Definition install (p : page) : page :=
  let p := Handle (Selector sel_body) "keypress" KeypressListener false p in
  let p := Handle (Selector sel_content_skipper) "click" SkipperListener false p in
  let p := Handler (Selector sel_input_invalid) "input" InvalidResetListener false p in
  let p := Handler (Selector sel_textarea_expandable) "focus" ExpandFocusListener true p in
  let p := Handler (Selector sel_guarded_textarea) "input" ArmGuardListener false p in
  Handler (Selector sel_form) "submit" SubmitListener false p.

(** A freshly loaded document: nothing bound, no guard, nothing done. *)
Definition load (ns : list element) : page := install (Page ns [] JNull []).

(** What can happen after load: an event is dispatched, or the user,
    the layout engine or another script changes an element. *)
Inductive step : page -> page -> Prop :=
  | step_event ev p p' ev' :
      dispatch ev p = Some (p', ev') -> step p p'
  | step_edit n e p :
      step p (set_nodes (<[n := e]> (nodes p)) p).

Inductive reachable : page -> Prop :=
  | reachable_load ns : reachable (load ns)
  | reachable_step p p' : reachable p -> step p p' -> reachable p'.
End Script.

(** ** Predicates used in the statements *)

(** The values the script ever puts into the unload hook. *)
Definition guard_ok (v : jsval) : Prop :=
  v = JNull \/ (exists this, v = JFun (ValueGuard this)) \/ v = JFun AlwaysGuard.

(** An entry of the log that is not a synthetic dispatch. *)
Definition not_dispatched (x : effect) : Prop :=
  forall n ty, x ≠ Dispatched n ty.

(** The listener that line 20 binds on a textarea.expandable, and the
    one that its handler binds in turn (line 22). *)
Definition focus_listener (n : nat) : listener :=
  Listener n "focus" ExpandFocusListener true.

Definition transitionend_listener (n : nat) : listener :=
  Listener n "transitionend" (TransitionEndListener n) false.

Definition transition_none (n : nat) (p : page) : Prop :=
  style_transition <$> nodes p !! n = Some "none".

(** [l] is bound on [n], and hears focus events or would resize [n]. *)
Definition expands_on (n : nat) (l : listener) : Prop :=
  l_node l = n /\ (l_type l = "focus" \/ l_callback l = ExpandFocusListener).

#[global] Instance expands_on_dec n l : Decision (expands_on n l).
Proof. unfold expands_on. apply _. Defined.

(** The element [n] still has its one-time focus listener, and no
    other listener of that kind. *)
Definition awaiting_focus (p : page) (n : nat) : Prop :=
  filter (expands_on n) (listeners p) = [focus_listener n].

(** No listener that would resize [n] is left. *)
Definition settled (n : nat) (p : page) : Prop :=
  forall l, l ∈ listeners p ->
            ~ (l_node l = n /\ l_callback l = ExpandFocusListener).

(** ** A sample page

    A body holding a skip link, a form with an invalid input and the
    entry textarea, and a clickable div. *)

Definition sample_textarea (text : string) : element :=
  Element "textarea" (Some 2) (list_to_map [("id", "user_content_edit")])
    ["expandable"] (JStr text) 200 "" "height 0.4s".

Definition sample_link : element :=
  Element "a" (Some 0)
    (list_to_map [("data-href", "/entry/1"); ("role", "button")])
    ["content-skipper"] JUndefined 20 "" "".

Definition sample_input : element :=
  Element "input" (Some 2) ∅ ["form-control"; "is-invalid"] (JStr "x") 30 "" "".

Definition sample_document (text : string) : list element :=
  [ Element "body" None ∅ [] JUndefined 900 "" "";
    sample_link;
    Element "form" (Some 0) ∅ [] JUndefined 300 "" "";
    sample_input;
    sample_textarea text;
    Element "div" (Some 0) ∅ ["key-clickable"] JUndefined 10 "" "" ].

(** Stand-ins for the two collaborators: no translation, and a
    validator that accepts letters, digits and spaces only. *)
Definition sample_gettext (s : string) : string := s.

Definition plain_char (a : Ascii.ascii) : bool :=
  let n := Ascii.nat_of_ascii a in
  Nat.eqb n 32 || (Nat.leb 48 n && Nat.leb n 57)
  || (Nat.leb 65 n && Nat.leb n 90) || (Nat.leb 97 n && Nat.leb n 122).

Definition sample_isValidText (v : jsval) : bool :=
  match v with
  | JStr s => forallb plain_char (String.list_ascii_of_string s)
  | _ => false
  end.

(** The page as loaded, with forbidden and with plain text typed in. *)
Definition sample_page : page := load (sample_document "merhaba<").

Definition sample_page_plain : page := load (sample_document "merhaba").

Definition sample_focus (n : nat) : event :=
  Event "focus" n JUndefined false false.

Definition sample_event (type : string) (n : nat) : event :=
  Event type n JUndefined true false.

Definition sample_keypress (n : nat) (k : string) : event :=
  Event "keypress" n (JStr k) true false.

(** ** Predicates for the script as a whole *)

(** What no handler writes: an element's tag, parent, value and its
    attributes other than class and style. *)
Definition untouched (e : element)
    : string * option nat * gmap string string * jsval :=
  (tagName e, parentNode e, attributes e, value e).

(** The seven bindings the script makes (lines 5, 12, 16, 20, 22, 27
    and 31): event type, callback and one-time flag as written there. *)
Definition is_script_binding (l : listener) : bool :=
  match l_callback l with
  | KeypressListener => bool_decide (l_type l = "keypress") && negb (l_once l)
  | SkipperListener => bool_decide (l_type l = "click") && negb (l_once l)
  | InvalidResetListener => bool_decide (l_type l = "input") && negb (l_once l)
  | ExpandFocusListener => bool_decide (l_type l = "focus") && l_once l
  | TransitionEndListener this =>
      bool_decide (l_type l = "transitionend") && negb (l_once l)
      && bool_decide (this = l_node l)
  | ArmGuardListener => bool_decide (l_type l = "input") && negb (l_once l)
  | SubmitListener => bool_decide (l_type l = "submit") && negb (l_once l)
  | ValueGuard _ | AlwaysGuard => false
  end.

Definition registry_wf (p : page) : Prop :=
  Forall (fun l => is_script_binding l = true) (listeners p).

(** The element [n] is there and is not marked invalid. *)
Definition clean (n : nat) (p : page) : Prop :=
  exists e, nodes p !! n = Some e /\ "is-invalid" ∉ classList e.

(** A second sample: a key-clickable span inside the skip link. *)
Definition sample_nested : list element :=
  [ Element "body" None ∅ [] JUndefined 900 "" "";
    Element "a" (Some 0) (list_to_map [("data-href", "/entry/1")])
      ["content-skipper"] JUndefined 20 "" "";
    Element "span" (Some 1) ∅ ["key-clickable"] JUndefined 20 "" "" ].

(** * Properties *)

(** ** Elementary facts *)

Lemma truthy_string (s : string) : truthy (JStr s) = true <-> s ≠ "".
Proof.
  simpl. rewrite negb_true_iff, bool_decide_eq_false. tauto.
Qed.

Lemma js_or_truthy (a b : jsval) : truthy a = true -> js_or a b = a.
Proof. unfold js_or. intros ->. reflexivity. Qed.

Lemma js_or_falsy (a b : jsval) : truthy a = false -> js_or a b = b.
Proof. unfold js_or. intros ->. reflexivity. Qed.

Lemma nodes_update_node (n m : nat) (f : element -> element) (p : page) :
  nodes (update_node n f p) !! m
  = if decide (n = m) then f <$> nodes p !! m else nodes p !! m.
Proof.
  unfold update_node. simpl. rewrite list_lookup_alter.
  destruct (decide (n = m)) as [->|]; reflexivity.
Qed.

Lemma length_nodes_update_node (n : nat) (f : element -> element) (p : page) :
  length (nodes (update_node n f p)) = length (nodes p).
Proof. unfold update_node. simpl. apply length_alter. Qed.

Lemma remove_first_subseteq (l k : listener) (ls : list listener) :
  k ∈ remove_first l ls -> k ∈ ls.
Proof.
  induction ls as [|x ls IH]; simpl; [done|].
  destruct (decide (x = l)) as [->|].
  - intros H. by apply list_elem_of_further.
  - intros [->|H]%elem_of_cons.
    + apply list_elem_of_here.
    + apply list_elem_of_further. by apply IH.
Qed.

Lemma remove_first_keeps (l k : listener) (ls : list listener) :
  k ≠ l -> k ∈ ls -> k ∈ remove_first l ls.
Proof.
  intros Hne. induction ls as [|x ls IH]; simpl; [done|].
  destruct (decide (x = l)) as [->|].
  - intros [->|H]%elem_of_cons; [done | exact H].
  - intros [->|H]%elem_of_cons.
    + apply list_elem_of_here.
    + apply list_elem_of_further. by apply IH.
Qed.

Lemma invoke_all_app call (l1 l2 : list listener) (ev : event) (p : page) :
  invoke_all call (l1 ++ l2) ev p
  = match invoke_all call l1 ev p with
    | Some (q, ev1) => invoke_all call l2 ev1 q
    | None => None
    end.
Proof.
  revert ev p. induction l1 as [|l l1 IH]; intros ev p; simpl; [reflexivity|].
  destruct (call _ _ _ _) as [[[q ev1] v]|]; [apply IH | reflexivity].
Qed.

(** ** Lifting a property of single calls to a whole dispatch *)

Section Lift.
Variable call : closure -> nat -> event -> page -> option result.
Variable ok : listener -> Prop.
Variable Inv : page -> event -> Prop.
Variable R : page -> page -> Prop.

Hypothesis R_refl : forall p, R p p.
Hypothesis R_trans : forall p q r, R p q -> R q r -> R p r.
Hypothesis Inv_ok : forall p ev l,
  Inv p ev -> l ∈ listeners p -> l_type l = ev_type ev -> ok l.
Hypothesis once_ok : forall l p ev,
  ok l -> l_once l = true -> Inv p ev ->
  Inv (set_listeners (remove_first l (listeners p)) p) ev
  /\ R p (set_listeners (remove_first l (listeners p)) p).
Hypothesis call_ok : forall l ev p,
  ok l -> Inv p ev ->
  exists p' ev' v,
    call (l_callback l) (l_node l) ev p = Some (p', ev', v)
    /\ Inv p' ev' /\ R p p'.

Lemma invoke_all_lift (ls : list listener) (ev : event) (p : page) :
  Forall ok ls -> Inv p ev ->
  exists p' ev',
    invoke_all call ls ev p = Some (p', ev') /\ Inv p' ev' /\ R p p'.
Proof.
  intros Hls. revert ev p.
  induction Hls as [|l ls Hl Hls IH]; intros ev p HI; simpl.
  - eauto.
  - set (p1 := if l_once l then _ else p).
    assert (Inv p1 ev /\ R p p1) as [HI1 HR1].
    { subst p1. destruct (l_once l) eqn:Ho; [by apply once_ok | by split]. }
    destruct (call_ok l ev p1 Hl HI1) as (p2 & ev2 & v & -> & HI2 & HR2).
    destruct (IH ev2 p2 HI2) as (p3 & ev3 & -> & HI3 & HR3).
    exists p3, ev3. eauto.
Qed.

Lemma propagate_lift (path : list nat) (ev : event) (p : page) :
  Inv p ev ->
  exists p' ev',
    propagate call path ev p = Some (p', ev') /\ Inv p' ev' /\ R p p'.
Proof.
  revert ev p. induction path as [|n path IH]; intros ev p HI; simpl.
  - eauto.
  - destruct (invoke_all_lift
                (filter (fun l => listens n (ev_type ev) l = true) (listeners p))
                ev p) as (p1 & ev1 & -> & HI1 & HR1); [|done|].
    { apply Forall_forall. intros l [Hl Hin]%list_elem_of_filter.
      apply (Inv_ok p ev l HI Hin).
      unfold listens in Hl. apply andb_true_iff in Hl as [_ Hl].
      by apply bool_decide_eq_true in Hl. }
    destruct (IH ev1 p1 HI1) as (p2 & ev2 & -> & HI2 & HR2).
    exists p2, ev2. eauto.
Qed.

Lemma dispatch_with_lift (ev : event) (p : page) :
  Inv p ev ->
  exists p' ev',
    dispatch_with call ev p = Some (p', ev') /\ Inv p' ev' /\ R p p'.
Proof. apply propagate_lift. Qed.
End Lift.

(** ** Calls and dispatches of the script *)

Section Properties.
Variable gettext : string -> string.
Variable isValidText : jsval -> bool.

Local Abbreviation submitS := (submit_handler gettext isValidText).
Local Abbreviation callS := (call gettext isValidText).
Local Abbreviation dispatchS := (dispatch gettext isValidText).
Local Abbreviation stepS := (step gettext isValidText).
Local Abbreviation reachableS := (reachable gettext isValidText).

(** The keypress listener does nothing unless both tests pass. *)
Lemma keypress_inert d (ev : event) (p : page) :
  matches p (target ev) sel_key_clickable = false
  \/ (key ev ≠ JStr " " /\ key ev ≠ JStr "Enter") ->
  keypress_handler d ev p = Some (p, ev, JUndefined).
Proof.
  intros H. unfold keypress_handler, strict_eq.
  destruct H as [-> | [H1 H2]]; [reflexivity|].
  rewrite !bool_decide_eq_false_2 by assumption.
  by rewrite andb_false_r.
Qed.

(** Except for the keypress listener, a call needs one level. *)
Lemma call_leaf (fuel : nat) (c : closure) (this : nat) (ev : event)
    (p : page) :
  c ≠ KeypressListener ->
  callS (S fuel) c this ev p = callS 1 c this ev p.
Proof. destruct c; intros H; try reflexivity. done. Qed.

Lemma call_leaf_total (c : closure) (this : nat) (ev : event) (p : page) :
  c ≠ KeypressListener -> is_Some (callS 1 c this ev p).
Proof. destruct c; intros H; simpl; try done; by eexists. Qed.

(** A handler hands the event back as it got it, or cancelled. *)
Lemma call_event (fuel : nat) (c : closure) (this : nat) (ev ev' : event)
    (p p' : page) (v : jsval) :
  callS fuel c this ev p = Some (p', ev', v) ->
  ev' = ev \/ ev' = preventDefault ev.
Proof.
  destruct fuel as [|fuel]; [done|].
  destruct c; simpl;
    unfold keypress_handler, skipper_handler, invalid_reset_handler,
      transition_end_handler, expand_focus_handler, arm_guard_handler,
      submit_handler;
    repeat case_match; intros; simplify_eq; auto.
Qed.

Lemma call_event_type fuel c this ev ev' p p' v :
  callS fuel c this ev p = Some (p', ev', v) -> ev_type ev' = ev_type ev.
Proof. intros [-> | ->]%call_event; reflexivity. Qed.

Lemma call_event_key fuel c this ev ev' p p' v :
  callS fuel c this ev p = Some (p', ev', v) -> key ev' = key ev.
Proof. intros [-> | ->]%call_event; reflexivity. Qed.

Section Preservation.
Variable ok : listener -> Prop.
Variable T : string -> Prop.
Variable J : page -> Prop.
Variable R : page -> page -> Prop.

Hypothesis R_refl : forall p, R p p.
Hypothesis R_trans : forall p q r, R p q -> R q r -> R p r.
Hypothesis T_click : T "click".
Hypothesis J_ok : forall p l, J p -> l ∈ listeners p -> T (l_type l) -> ok l.
Hypothesis once_ok : forall l p,
  ok l -> l_once l = true -> J p ->
  J (set_listeners (remove_first l (listeners p)) p)
  /\ R p (set_listeners (remove_first l (listeners p)) p).
Hypothesis leaf_ok : forall l ev p p' ev' v,
  ok l -> J p -> l_callback l ≠ KeypressListener ->
  callS 1 (l_callback l) (l_node l) ev p = Some (p', ev', v) ->
  J p' /\ R p p'.
Hypothesis emit_ok : forall n ty p,
  J p -> J (emit (Dispatched n ty) p) /\ R p (emit (Dispatched n ty) p).

Let Inv1 (p : page) (ev : event) : Prop :=
  J p /\ key ev = JUndefined /\ T (ev_type ev).
Let Inv2 (p : page) (ev : event) : Prop := J p /\ T (ev_type ev).

Lemma call1_synthetic (l : listener) (ev : event) (p : page) :
  ok l -> Inv1 p ev ->
  exists p' ev' v,
    callS 1 (l_callback l) (l_node l) ev p = Some (p', ev', v)
    /\ Inv1 p' ev' /\ R p p'.
Proof using R_refl leaf_ok.
  intros Hl (HJ & Hk & HT).
  destruct (decide (l_callback l = KeypressListener)) as [Hc|Hc].
  - rewrite Hc. simpl. rewrite keypress_inert.
    + exists p, ev, JUndefined. by repeat split.
    + right. rewrite Hk. by split.
  - destruct (call_leaf_total (l_callback l) (l_node l) ev p Hc)
      as [[[p' ev'] v] Heq].
    exists p', ev', v. split; [done|].
    destruct (leaf_ok _ _ _ _ _ _ Hl HJ Hc Heq) as [HJ' HR'].
    repeat split; try done.
    + by rewrite (call_event_key _ _ _ _ _ _ _ _ Heq).
    + by rewrite (call_event_type _ _ _ _ _ _ _ _ Heq).
Qed.

(** A dispatch of a key-less event, one level deep. *)
Lemma synthetic_dispatch_preserves (ev : event) (p : page) :
  J p -> key ev = JUndefined -> T (ev_type ev) ->
  exists p' ev',
    dispatch_with (callS 1) ev p = Some (p', ev') /\ J p' /\ R p p'.
Proof using R_refl R_trans J_ok once_ok leaf_ok.
  intros HJ Hk HT.
  destruct (dispatch_with_lift (callS 1) ok Inv1 R R_refl R_trans) with
    (ev := ev) (p := p) as (p' & ev' & Heq & (HJ' & _) & HR).
  - intros q e l (HJq & _ & HTq) Hin Hty. apply (J_ok q l HJq Hin).
    by rewrite Hty.
  - intros l q e Hl Ho (HJq & Hkq & HTq).
    destruct (once_ok l q Hl Ho HJq). by repeat split.
  - apply call1_synthetic.
  - by repeat split.
  - eauto.
Qed.

Lemma call2_preserves (l : listener) (ev : event) (p : page) :
  ok l -> Inv2 p ev ->
  exists p' ev' v,
    callS 2 (l_callback l) (l_node l) ev p = Some (p', ev', v)
    /\ Inv2 p' ev' /\ R p p'.
Proof using R_refl R_trans T_click J_ok once_ok leaf_ok emit_ok.
  intros Hl (HJ & HT).
  destruct (decide (l_callback l = KeypressListener)) as [Hc|Hc].
  - rewrite Hc.
    change (callS 2 KeypressListener (l_node l) ev p)
      with (keypress_handler (dispatchEvent_with (callS 1)) ev p).
    unfold keypress_handler.
    destruct (_ && _).
    + unfold dispatchEvent_with.
      destruct (emit_ok (target (preventDefault ev))
                  (ev_type (new_Event "click" (target (preventDefault ev)))) p HJ)
        as [HJ1 HR1].
      destruct (synthetic_dispatch_preserves
                  (new_Event "click" (target (preventDefault ev)))
                  _ HJ1 eq_refl T_click) as (p' & ev' & -> & HJ' & HR').
      simpl. exists p', (preventDefault ev), JUndefined.
      repeat split; eauto.
    + exists p, ev, JUndefined. by repeat split.
  - rewrite call_leaf by done.
    destruct (call_leaf_total (l_callback l) (l_node l) ev p Hc)
      as [[[p' ev'] v] Heq].
    exists p', ev', v. split; [done|].
    destruct (leaf_ok _ _ _ _ _ _ Hl HJ Hc Heq) as [HJ' HR'].
    repeat split; try done.
    by rewrite (call_event_type _ _ _ _ _ _ _ _ Heq).
Qed.

Lemma Inv2_ok (q : page) (e : event) (l : listener) :
  Inv2 q e -> l ∈ listeners q -> l_type l = ev_type e -> ok l.
Proof using J_ok.
  intros (HJq & HTq) Hin Hty. apply (J_ok q l HJq Hin). by rewrite Hty.
Qed.

Lemma Inv2_once (l : listener) (q : page) (e : event) :
  ok l -> l_once l = true -> Inv2 q e ->
  Inv2 (set_listeners (remove_first l (listeners q)) q) e
  /\ R q (set_listeners (remove_first l (listeners q)) q).
Proof using once_ok.
  intros Hl Ho (HJq & HTq). destruct (once_ok l q Hl Ho HJq).
  by repeat split.
Qed.

(** Running a snapshot of listeners returns, and carries [J] and [R]. *)
Lemma invoke_all_preserves (ls : list listener) (ev : event) (p : page) :
  Forall ok ls -> J p -> T (ev_type ev) ->
  exists p' ev',
    invoke_all (callS 2) ls ev p = Some (p', ev')
    /\ J p' /\ T (ev_type ev') /\ R p p'.
Proof using R_refl R_trans T_click J_ok once_ok leaf_ok emit_ok.
  intros Hls HJ HT.
  destruct (invoke_all_lift (callS 2) ok Inv2 R R_refl R_trans
              Inv2_once call2_preserves ls ev p Hls)
    as (p' & ev' & Heq & (HJ' & HT') & HR); [by split|].
  eauto 10.
Qed.

(** So does the walk of an event along any path. *)
Lemma propagate_preserves (path : list nat) (ev : event) (p : page) :
  J p -> T (ev_type ev) ->
  exists p' ev',
    propagate (callS 2) path ev p = Some (p', ev') /\ J p' /\ R p p'.
Proof using R_refl R_trans T_click J_ok once_ok leaf_ok emit_ok.
  intros HJ HT.
  destruct (propagate_lift (callS 2) ok Inv2 R R_refl R_trans
              Inv2_ok Inv2_once call2_preserves path ev p)
    as (p' & ev' & Heq & (HJ' & _) & HR); [by split|].
  eauto.
Qed.

Lemma walk_preserves :
  (forall ls ev p,
     Forall ok ls -> J p -> T (ev_type ev) ->
     exists p' ev',
       invoke_all (callS 2) ls ev p = Some (p', ev')
       /\ J p' /\ T (ev_type ev') /\ R p p')
  /\ (forall path ev p,
        J p -> T (ev_type ev) ->
        exists p' ev',
          propagate (callS 2) path ev p = Some (p', ev')
          /\ J p' /\ R p p').
Proof using R_refl R_trans T_click J_ok once_ok leaf_ok emit_ok.
  split; [apply invoke_all_preserves | apply propagate_preserves].
Qed.

(** Every dispatch returns, and carries [J] and [R] along. *)
Lemma dispatch_preserves (ev : event) (p : page) :
  J p -> T (ev_type ev) ->
  exists p' ev', dispatchS ev p = Some (p', ev') /\ J p' /\ R p p'.
Proof using R_refl R_trans T_click J_ok once_ok leaf_ok emit_ok.
  apply propagate_preserves.
Qed.
End Preservation.

Lemma dispatch_total (ev : event) (p : page) : is_Some (dispatchS ev p).
Proof.
  destruct (dispatch_preserves (fun _ => True) (fun _ => True)
              (fun _ => True) (fun _ _ => True)) with (ev := ev) (p := p)
    as (p' & ev' & -> & _); by eauto.
Qed.

(** ** Registration *)

Lemma Handle_frame r ty cb once (p : page) :
  nodes (Handle r ty cb once p) = nodes p
  /\ onbeforeunload (Handle r ty cb once p) = onbeforeunload p
  /\ effects (Handle r ty cb once p) = effects p.
Proof. unfold Handle. by destruct (first_match p r). Qed.

Lemma Handler_fold ty cb once (ms : list nat) (p : page) :
  foldl (fun q n => addEventListener n ty cb once q) p ms
  = set_listeners
      (listeners p ++ ((fun n => Listener n ty cb once) <$> ms))%list p.
Proof.
  revert p. induction ms as [|m ms IH]; intros p; simpl.
  - rewrite app_nil_r. by destruct p.
  - rewrite IH. unfold set_listeners, addEventListener. simpl.
    by rewrite <- app_assoc.
Qed.

Lemma Handler_frame r ty cb once (p : page) :
  nodes (Handler r ty cb once p) = nodes p
  /\ onbeforeunload (Handler r ty cb once p) = onbeforeunload p
  /\ effects (Handler r ty cb once p) = effects p.
Proof. unfold Handler. by rewrite Handler_fold. Qed.

Lemma install_frame (p : page) :
  nodes (install p) = nodes p
  /\ onbeforeunload (install p) = onbeforeunload p
  /\ effects (install p) = effects p.
Proof.
  unfold install.
  repeat match goal with
  | |- context [Handler ?r ?ty ?cb ?o ?q] =>
      destruct (Handler_frame r ty cb o q) as (-> & -> & ->)
  | |- context [Handle ?r ?ty ?cb ?o ?q] =>
      destruct (Handle_frame r ty cb o q) as (-> & -> & ->)
  end.
  done.
Qed.

(** ** The unload guard *)

(** Which handlers write the hook, and what they write. *)
Lemma leaf_guard (c : closure) (this : nat) (ev ev' : event) (p p' : page)
    (v : jsval) :
  c ≠ KeypressListener ->
  callS 1 c this ev p = Some (p', ev', v) ->
  onbeforeunload p' = onbeforeunload p
  \/ (c = ArmGuardListener /\ onbeforeunload p' = JFun (ValueGuard this))
  \/ (c = SubmitListener
      /\ (onbeforeunload p' = JNull \/ onbeforeunload p' = JFun AlwaysGuard)).
Proof.
  intros Hc.
  destruct c; simpl; try done;
    unfold skipper_handler, invalid_reset_handler, transition_end_handler,
      expand_focus_handler, arm_guard_handler, submit_handler;
    repeat case_match; intros [= <- <- <-]; simpl; auto.
Qed.

Lemma dispatch_guard_ok (ev ev' : event) (p p' : page) :
  guard_ok (onbeforeunload p) ->
  dispatchS ev p = Some (p', ev') ->
  guard_ok (onbeforeunload p').
Proof.
  intros Hg Hd.
  destruct (dispatch_preserves (fun _ => True) (fun _ => True)
              (fun q => guard_ok (onbeforeunload q)) (fun _ _ => True))
    with (ev := ev) (p := p) as (q & ev1 & Hq & HJ & _); try done.
  - intros l q e q' e' v _ HJ Hc Hcall. split; [|done].
    destruct (leaf_guard _ _ _ _ _ _ _ Hc Hcall)
      as [-> | [[_ ->] | [_ [-> | ->]]]]; unfold guard_ok; eauto.
  - congruence.
Qed.

(** C3: in every state reachable from page load by dispatching events
    (and by changes to the elements from outside the script),
    [window.onbeforeunload] is null, or the guard installed by the
    textarea input handler ([() => this.value || null]), or the guard
    installed by the invalid branch of the submit handler
    ([() => true]). *)
Theorem unload_guard_invariant (p : page) :
  reachableS p ->
  onbeforeunload p = JNull
  \/ (exists this, onbeforeunload p = JFun (ValueGuard this))
  \/ onbeforeunload p = JFun AlwaysGuard.
Proof.
  induction 1 as [ns | p p' Hp IH Hstep].
  - left. unfold load. by destruct (install_frame (Page ns [] JNull []))
      as (_ & -> & _).
  - destruct Hstep as [ev q q' ev' Hd | n e q].
    + by apply (dispatch_guard_ok ev ev' q q').
    + exact IH.
Qed.


(** ** The submit handler *)

(** C1: when the form has a descendant [#user_content_edit] whose
    value is non-empty (truthy; for a string that is [truthy_string])
    and [isValidText] rejects it, the submit handler shows exactly
    one notification, the localized forbidden-characters message with
    severity "error", leaves [() => true] in the unload hook, which
    warns on every unload, cancels the event and returns false. *)
Theorem submit_invalid_blocks (this userInput : nat) (ev : event) (p : page) :
  querySelector p this sel_user_content_edit = Some userInput ->
  truthy (get_value p userInput) = true ->
  isValidText (get_value p userInput) = false ->
  exists p',
    submitS this ev p = (p', preventDefault ev, JBool false)
    /\ effects p'
       = (effects p
          ++ [Notified (gettext "this content includes forbidden characters.")
                "error"])%list
    /\ onbeforeunload p' = JFun AlwaysGuard
    /\ beforeunload p' = Some (JBool true)
    /\ defaultPrevented (preventDefault ev) = true
    /\ nodes p' = nodes p /\ listeners p' = listeners p.
Proof.
  intros Hq Ht Hv. unfold submit_handler.
  change (querySelector (set_onbeforeunload JNull p) this sel_user_content_edit)
    with (querySelector p this sel_user_content_edit).
  rewrite Hq.
  change (get_value (set_onbeforeunload JNull p) userInput)
    with (get_value p userInput).
  rewrite Ht, Hv. simpl. eexists. repeat split.
Qed.

(** C2: the submit handler clears the unload hook before it does
    anything else: its outcome is the one it has on the page with the
    hook already null, and the hook it leaves is null or [() => true],
    never the one it found.  When the form has no descendant
    [#user_content_edit], or that element's value is empty (falsy),
    or [isValidText] accepts it, the handler changes nothing but the
    hook, which it leaves null: no notification, the event not
    cancelled, nothing returned. *)
Theorem submit_clears_guard (this : nat) (ev : event) (p : page) :
  submitS this ev p = submitS this ev (set_onbeforeunload JNull p)
  /\ (onbeforeunload (submitS this ev p).1.1 = JNull
      \/ onbeforeunload (submitS this ev p).1.1 = JFun AlwaysGuard)
  /\ (querySelector p this sel_user_content_edit = None
      \/ (exists userInput,
            querySelector p this sel_user_content_edit = Some userInput
            /\ (truthy (get_value p userInput) = false
                \/ isValidText (get_value p userInput) = true)) ->
      submitS this ev p = (set_onbeforeunload JNull p, ev, JUndefined)
      /\ beforeunload (set_onbeforeunload JNull p) = None).
Proof.
  split; [reflexivity|]. split.
  - unfold submit_handler. repeat case_match; simpl; auto.
  - unfold submit_handler.
    change (querySelector (set_onbeforeunload JNull p) this sel_user_content_edit)
      with (querySelector p this sel_user_content_edit).
    intros [-> | (u & -> & H)]; [done|].
    change (get_value (set_onbeforeunload JNull p) u) with (get_value p u).
    destruct H as [-> | ->]; [done|].
    by destruct (truthy (get_value p u)).
Qed.

(** ** The unsaved-edit guard *)

(** C5: the input handler of the guarded textareas puts
    [() => this.value || null] into the unload hook.  Whenever the
    page unloads with that guard in place, the guard returns a truthy
    value exactly if the textarea's value is then non-empty, and it
    returns null when the value is empty. *)
Theorem input_arms_value_guard (this : nat) (ev : event) (p : page) :
  arm_guard_handler this ev p
  = (set_onbeforeunload (JFun (ValueGuard this)) p, ev, JUndefined)
  /\ forall q : page,
       onbeforeunload q = JFun (ValueGuard this) ->
       exists r,
         beforeunload q = Some r
         /\ truthy r = truthy (get_value q this)
         /\ (truthy (get_value q this) = false -> r = JNull)
         /\ forall s, get_value q this = JStr s ->
              (s ≠ "" -> r = JStr s /\ truthy r = true)
              /\ (s = "" -> r = JNull).
Proof.
  split; [reflexivity|]. intros q Hq.
  exists (value_guard this q). unfold beforeunload. rewrite Hq.
  split; [reflexivity|]. unfold value_guard, js_or.
  destruct (truthy (get_value q this)) eqn:Ht.
  - split; [done|]. split; [done|].
    intros s Hs. rewrite Hs in Ht |- *.
    apply truthy_string in Ht. split; [|done].
    intros _. split; [done|]. by apply truthy_string.
  - split; [done|]. split; [done|].
    intros s Hs. rewrite Hs in Ht. split; [|done].
    intros Hne. apply truthy_string in Hne. congruence.
Qed.

(** ** The content skipper *)

(** C8: called on an element whose [data-href] attribute holds [X],
    the click handler calls [location.replace] once, with exactly
    [X], and does nothing else. *)
Theorem skipper_replaces_location (this : nat) (ev : event) (p : page)
    (e : element) (X : string) :
  nodes p !! this = Some e ->
  attributes e !! "data-href" = Some X ->
  skipper_handler this ev p = (emit (Replaced (JStr X)) p, ev, JUndefined)
  /\ effects (skipper_handler this ev p).1.1
     = (effects p ++ [Replaced (JStr X)])%list.
Proof.
  intros He HX. unfold skipper_handler, getAttribute.
  rewrite He. simpl. rewrite HX. done.
Qed.

(** ** The invalid-input reset *)

(** C9: after the input handler has run on an element, the element's
    class list does not contain "is-invalid"; its other classes are
    the ones it had. *)
Theorem input_removes_is_invalid (this : nat) (ev : event) (p : page)
    (e : element) :
  nodes p !! this = Some e ->
  exists e',
    nodes (invalid_reset_handler this ev p).1.1 !! this = Some e'
    /\ ("is-invalid" ∉ classList e')
    /\ (forall k, k ≠ "is-invalid" ->
          (k ∈ classList e') <-> (k ∈ classList e))
    /\ matches (invalid_reset_handler this ev p).1.1 this sel_input_invalid
       = false.
Proof.
  intros He. exists (classList_remove "is-invalid" e).
  change ((invalid_reset_handler this ev p).1.1)
    with (update_node this (classList_remove "is-invalid") p).
  assert (nodes (update_node this (classList_remove "is-invalid") p) !! this
          = Some (classList_remove "is-invalid" e)) as Hn.
  { rewrite nodes_update_node, decide_True by done. by rewrite He. }
  assert ("is-invalid" ∉ classList (classList_remove "is-invalid" e)) as Hnot.
  { simpl. intros [H _]%list_elem_of_filter. done. }
  split; [done|]. split; [done|]. split.
  - intros k Hk. simpl. rewrite list_elem_of_filter.
    split; [by intros [_ H] | intros H; by split].
  - unfold matches. rewrite Hn. simpl.
    unfold compound_matches. cbn [c_classes forallb].
    rewrite (bool_decide_eq_false_2 _ Hnot). simpl.
    by rewrite andb_false_r.
Qed.

(** ** The keypress handler *)

(** Two calling conventions that agree on the events of interest
    give the same dispatch. *)
Section Agree.
Variables call1 call2 : closure -> nat -> event -> page -> option result.
Variable E : event -> Prop.
Hypothesis agree : forall c this ev p,
  E ev -> call1 c this ev p = call2 c this ev p.
Hypothesis E_kept : forall c this ev p p' ev' v,
  E ev -> call1 c this ev p = Some (p', ev', v) -> E ev'.

Lemma invoke_all_agree (ls : list listener) (ev : event) (p : page) :
  E ev -> invoke_all call1 ls ev p = invoke_all call2 ls ev p.
Proof.
  revert ev p. induction ls as [|l ls IH]; intros ev p HE; simpl; [done|].
  rewrite <- agree by done.
  destruct (call1 _ _ _ _) as [[[q ev1] v]|] eqn:Hc; [|done].
  apply IH. eapply E_kept; eauto.
Qed.

Lemma invoke_all_E (ls : list listener) (ev ev' : event) (p p' : page) :
  E ev -> invoke_all call1 ls ev p = Some (p', ev') -> E ev'.
Proof.
  revert ev p. induction ls as [|l ls IH]; intros ev p HE; simpl.
  - by intros [= <- <-].
  - destruct (call1 _ _ _ _) as [[[q ev1] v]|] eqn:Hc; [|done].
    apply IH. eapply E_kept; eauto.
Qed.

Lemma propagate_agree (path : list nat) (ev : event) (p : page) :
  E ev -> propagate call1 path ev p = propagate call2 path ev p.
Proof.
  revert ev p. induction path as [|n path IH]; intros ev p HE; simpl; [done|].
  rewrite <- invoke_all_agree by done.
  destruct (invoke_all call1 _ _ _) as [[q ev1]|] eqn:Hi; [|done].
  apply IH. eapply invoke_all_E; eauto.
Qed.
End Agree.

Lemma call_synthetic_fuel (fuel : nat) (c : closure) (this : nat)
    (ev : event) (p : page) :
  key ev = JUndefined ->
  callS (S fuel) c this ev p = callS 1 c this ev p.
Proof.
  intros Hk. destruct (decide (c = KeypressListener)) as [-> | Hc].
  - simpl. rewrite !keypress_inert; [done | right | right];
      rewrite Hk; by split.
  - by apply call_leaf.
Qed.

(** Enough fuel: beyond two levels the budget makes no difference. *)
Lemma call_fuel (fuel : nat) (c : closure) (this : nat) (ev : event)
    (p : page) :
  callS (S (S fuel)) c this ev p = callS 2 c this ev p.
Proof.
  destruct (decide (c = KeypressListener)) as [-> | Hc].
  - change (keypress_handler (dispatchEvent_with (callS (S fuel))) ev p
            = keypress_handler (dispatchEvent_with (callS 1)) ev p).
    unfold keypress_handler. destruct (_ && _); [|done].
    unfold dispatchEvent_with, dispatch_with.
    rewrite (propagate_agree (callS (S fuel)) (callS 1)
               (fun e => key e = JUndefined)); [done | | | done].
    + intros. by apply call_synthetic_fuel.
    + intros c this' e q q' e' v He Hcall.
      by rewrite (call_event_key _ _ _ _ _ _ _ _ Hcall).
  - by rewrite (call_leaf (S fuel)), (call_leaf 1).
Qed.

Lemma call_total (fuel : nat) (c : closure) (this : nat) (ev : event)
    (p : page) :
  is_Some (callS (S (S fuel)) c this ev p).
Proof.
  rewrite call_fuel.
  destruct (call2_preserves (fun _ => True) (fun _ => True) (fun _ => True)
              (fun _ _ => True)) with (l := Listener this "" c false)
              (ev := ev) (p := p) as (p' & ev' & v & Heq & _); done.
Qed.

(** C10: if the target does not match "[role=button], .key-clickable",
    or the key is neither " " nor "Enter", the keypress handler
    returns with the page and the event exactly as they were: nothing
    dispatched or notified, the event not cancelled, the unload hook,
    the listeners and every element untouched. *)
Theorem keypress_no_effect (fuel : nat) (this : nat) (ev : event) (p : page) :
  matches p (target ev) sel_key_clickable = false
  \/ (key ev ≠ JStr " " /\ key ev ≠ JStr "Enter") ->
  callS (S fuel) KeypressListener this ev p = Some (p, ev, JUndefined).
Proof. intros H. simpl. by apply keypress_inert. Qed.

(** What the click listeners of the script may add to the log. *)
Lemma leaf_effects (c : closure) (this : nat) (ev ev' : event) (p p' : page)
    (v : jsval) :
  c ≠ KeypressListener ->
  callS 1 c this ev p = Some (p', ev', v) ->
  exists rest, effects p' = (effects p ++ rest)%list
               /\ Forall not_dispatched rest.
Proof.
  intros Hc.
  destruct c; simpl; try done;
    unfold skipper_handler, invalid_reset_handler, transition_end_handler,
      expand_focus_handler, arm_guard_handler, submit_handler;
    repeat case_match; intros [= <- <- <-]; simpl;
    try (exists []; split; [by rewrite app_nil_r | by constructor]);
    (eexists [_]; split; [reflexivity|]; by repeat constructor).
Qed.

(** C4: if the target matches "[role=button], .key-clickable" and
    the key is " " or "Enter", the keypress handler cancels the event
    and dispatches one synthetic click on the target; whatever else
    enters the log comes from the click listeners and is no further
    dispatch. *)
Theorem keypress_synthesizes_click (fuel : nat) (this : nat) (ev : event)
    (p : page) :
  matches p (target ev) sel_key_clickable = true ->
  key ev = JStr " " \/ key ev = JStr "Enter" ->
  exists p' rest,
    callS (S (S fuel)) KeypressListener this ev p
    = Some (p', preventDefault ev, JUndefined)
    /\ defaultPrevented (preventDefault ev) = true
    /\ effects p'
       = (effects p ++ Dispatched (target ev) "click" :: rest)%list
    /\ Forall not_dispatched rest.
Proof.
  intros Hm Hk. rewrite call_fuel.
  change (callS 2 KeypressListener this ev p)
    with (keypress_handler (dispatchEvent_with (callS 1)) ev p).
  unfold keypress_handler. rewrite Hm.
  assert (strict_eq (key ev) (JStr " ") || strict_eq (key ev) (JStr "Enter")
          = true) as ->.
  { unfold strict_eq. destruct Hk as [-> | ->]; reflexivity. }
  simpl andb. cbv iota. unfold dispatchEvent_with.
  destruct (synthetic_dispatch_preserves (fun _ => True) (fun _ => True)
              (fun _ => True)
              (fun q q' => exists rest, effects q' = (effects q ++ rest)%list
                                        /\ Forall not_dispatched rest))
    with (ev := new_Event "click" (target (preventDefault ev)))
         (p := emit (Dispatched (target (preventDefault ev))
                       (ev_type (new_Event "click" (target (preventDefault ev)))))
                    p)
    as (p' & ev' & -> & _ & rest & Hrest & Hnd); try done.
  - intros q. exists []. split; [by rewrite app_nil_r | constructor].
  - intros q1 q2 q3 (r1 & H1 & F1) (r2 & H2 & F2). exists (r1 ++ r2)%list.
    split; [by rewrite H2, H1, app_assoc | by apply Forall_app].
  - intros l q _. split; [done|]. exists [].
    split; [by rewrite app_nil_r | constructor].
  - intros l e q q' e' v _ _ Hc Hcall. split; [done|].
    by apply (leaf_effects _ _ _ _ _ _ _ Hc Hcall).
  - exists p', rest. simpl. repeat split; try done.
    rewrite Hrest. simpl. by rewrite <- app_assoc.
Qed.

(** ** One-time and lasting listeners *)

Lemma update_node_field {A} (g : element -> A) (m n : nat)
    (f : element -> element) (p : page) :
  (m = n -> forall e, g (f e) = g e) ->
  g <$> nodes (update_node m f p) !! n = g <$> nodes p !! n.
Proof.
  intros H. rewrite nodes_update_node.
  destruct (decide (m = n)) as [Heq|]; [|done].
  destruct (nodes p !! n); simpl; [|done]. by rewrite H.
Qed.

(** What a handler does to the listeners: nothing, or, for the focus
    handler, one lasting transitionend listener more. *)
Lemma leaf_listeners (c : closure) (this : nat) (ev ev' : event)
    (p p' : page) (v : jsval) :
  c ≠ KeypressListener ->
  callS 1 c this ev p = Some (p', ev', v) ->
  listeners p' = listeners p
  \/ (c = ExpandFocusListener
      /\ listeners p' = (listeners p ++ [transitionend_listener this])%list).
Proof.
  intros Hc.
  destruct c; simpl; try done;
    unfold skipper_handler, invalid_reset_handler, transition_end_handler,
      expand_focus_handler, arm_guard_handler, submit_handler;
    repeat case_match; intros [= <- <- <-]; simpl; auto.
Qed.

(** What a handler does to the elements. *)
Lemma leaf_nodes (c : closure) (this : nat) (ev ev' : event)
    (p p' : page) (v : jsval) :
  c ≠ KeypressListener ->
  callS 1 c this ev p = Some (p', ev', v) ->
  nodes p' = nodes p
  \/ (c = InvalidResetListener
      /\ p' = update_node this (classList_remove "is-invalid") p)
  \/ (c = ExpandFocusListener
      /\ nodes p'
         = nodes (update_node this
                    (fun e => with_style_height
                                (pretty (offsetHeight e + 150)%N ++ "px") e)
                    p))
  \/ (exists t, c = TransitionEndListener t
                /\ p' = update_node t (with_style_transition "none") p).
Proof.
  intros Hc.
  destruct c; simpl; try done;
    unfold skipper_handler, invalid_reset_handler, transition_end_handler,
      expand_focus_handler, arm_guard_handler, submit_handler;
    repeat case_match; intros [= <- <- <-]; simpl; eauto 10.
Qed.

Lemma dispatch_length (ev ev' : event) (p p' : page) :
  dispatchS ev p = Some (p', ev') -> length (nodes p') = length (nodes p).
Proof.
  intros Hd.
  destruct (dispatch_preserves (fun _ => True) (fun _ => True)
              (fun _ => True)
              (fun q q' => length (nodes q') = length (nodes q)))
    with (ev := ev) (p := p) as (q & ev1 & Hq & _ & HR); try done.
  - intros q1 q2 q3 H1 H2. by rewrite H2.
  - intros l e q q' e' v _ _ Hc Hcall. split; [done|].
    destruct (leaf_nodes _ _ _ _ _ _ _ Hc Hcall)
      as [-> | [[_ ->] | [[_ ->] | (t & _ & ->)]]];
      by rewrite ?length_nodes_update_node.
  - congruence.
Qed.

(** A listener registered without [once] is never removed. *)
Lemma dispatch_keeps_listener (l : listener) (ev ev' : event) (p p' : page) :
  l_once l = false ->
  l ∈ listeners p ->
  dispatchS ev p = Some (p', ev') ->
  l ∈ listeners p'.
Proof.
  intros Ho Hin Hd.
  destruct (dispatch_preserves (fun _ => True) (fun _ => True)
              (fun _ => True)
              (fun q q' => l ∈ listeners q -> l ∈ listeners q'))
    with (ev := ev) (p := p) as (q & ev1 & Hq & _ & HR); try done.
  - auto.
  - intros l0 q _ Ho0 _. split; [done|]. simpl.
    apply remove_first_keeps. congruence.
  - intros l0 e q q' e' v _ _ Hc Hcall. split; [done|].
    destruct (leaf_listeners _ _ _ _ _ _ _ Hc Hcall) as [-> | [_ ->]];
      [done|]. intros H. apply elem_of_app. by left.
  - rewrite Hd in Hq. injection Hq as <- <-. by apply HR.
Qed.

Lemma steps_length (p p' : page) :
  rtc stepS p p' -> length (nodes p') = length (nodes p).
Proof.
  induction 1 as [|p q r Hstep _ IH]; [done|]. rewrite IH.
  destruct Hstep as [ev q q' ev' Hd | n e q].
  - by apply (dispatch_length ev ev').
  - simpl. apply length_insert.
Qed.

Lemma steps_keep_listener (l : listener) (p p' : page) :
  l_once l = false -> rtc stepS p p' -> l ∈ listeners p -> l ∈ listeners p'.
Proof.
  intros Ho. induction 1 as [|p q r Hstep _ IH]; [done|]. intros Hin.
  apply IH. destruct Hstep as [ev q q' ev' Hd | n e q]; [|done].
  by apply (dispatch_keeps_listener l ev ev' q q').
Qed.

Lemma walk_length :
  (forall ls ev p,
     exists p' ev',
       invoke_all (callS 2) ls ev p = Some (p', ev')
       /\ length (nodes p') = length (nodes p))
  /\ (forall path ev p,
        exists p' ev',
          propagate (callS 2) path ev p = Some (p', ev')
          /\ length (nodes p') = length (nodes p)).
Proof.
  destruct (walk_preserves (fun _ => True) (fun _ => True) (fun _ => True)
              (fun q q' => length (nodes q') = length (nodes q)))
    as [Hi Hp]; try done.
  - intros q1 q2 q3 H1 H2. by rewrite H2.
  - intros l e q q' e' v _ _ Hc Hcall. split; [done|].
    destruct (leaf_nodes _ _ _ _ _ _ _ Hc Hcall)
      as [-> | [[_ ->] | [[_ ->] | (t & _ & ->)]]];
      by rewrite ?length_nodes_update_node.
  - split.
    + intros ls ev p.
      destruct (Hi ls ev p) as (p' & ev' & ? & _ & _ & ?); eauto.
      by apply Forall_forall.
    + intros path ev p.
      destruct (Hp path ev p) as (p' & ev' & ? & _ & ?); eauto.
Qed.

(** Once an element's transition is "none", the script leaves it so. *)
Lemma walk_transition_none (n : nat) :
  (forall ls ev p,
     transition_none n p ->
     exists p' ev',
       invoke_all (callS 2) ls ev p = Some (p', ev') /\ transition_none n p')
  /\ (forall path ev p,
        transition_none n p ->
        exists p' ev',
          propagate (callS 2) path ev p = Some (p', ev')
          /\ transition_none n p').
Proof.
  destruct (walk_preserves (fun _ => True) (fun _ => True)
              (transition_none n) (fun _ _ => True))
    as [Hi Hp]; try done.
  - intros l e q q' e' v _ HJ Hc Hcall. split; [|done].
    unfold transition_none in *.
    destruct (leaf_nodes _ _ _ _ _ _ _ Hc Hcall)
      as [-> | [[_ ->] | [[_ ->] | (t & _ & ->)]]]; [done | | |].
    + by rewrite update_node_field.
    + by rewrite update_node_field.
    + rewrite nodes_update_node. destruct (decide (t = n)) as [_|]; [|done].
      destruct (nodes q !! n); [done | discriminate].
  - split.
    + intros ls ev p HJ.
      destruct (Hi ls ev p) as (p' & ev' & ? & ? & _); eauto.
      by apply Forall_forall.
    + intros path ev p HJ.
      destruct (Hp path ev p) as (p' & ev' & ? & ? & _); eauto.
Qed.

(** C7, as the script has it: the focus handler registers the
    transitionend listener without the one-time option.  From then
    on, in every later state, each transitionend event on the element
    runs it, leaving the element's transition style "none", and the
    listener is still registered afterwards. *)
Theorem transitionend_listener_persists (n : nat) (e : element)
    (ev0 : event) (p : page) :
  nodes p !! n = Some e ->
  listeners (expand_focus_handler n ev0 p).1.1
  = (listeners p ++ [transitionend_listener n])%list
  /\ forall p2 ev,
       rtc stepS (expand_focus_handler n ev0 p).1.1 p2 ->
       ev_type ev = "transitionend" -> target ev = n ->
       exists p3 ev3,
         dispatchS ev p2 = Some (p3, ev3)
         /\ style_transition <$> nodes p3 !! n = Some "none"
         /\ (transitionend_listener n ∈ listeners p3).
Proof.
  intros He. split; [reflexivity|]. intros p2 ev Hsteps Hty Htg.
  assert (transitionend_listener n ∈ listeners p2) as Hin.
  { apply (steps_keep_listener (transitionend_listener n) _ _ eq_refl Hsteps).
    simpl. apply elem_of_app. right. apply list_elem_of_here. }
  assert (n < length (nodes p2)) as Hlen.
  { rewrite (steps_length _ _ Hsteps). simpl. rewrite length_alter.
    by apply lookup_lt_Some in He. }
  assert (transitionend_listener n
            ∈ filter (fun l => listens n (ev_type ev) l = true) (listeners p2))
    as Hsnap.
  { apply list_elem_of_filter. split; [|done]. rewrite Hty.
    unfold listens. simpl. by rewrite !bool_decide_eq_true_2. }
  apply list_elem_of_split in Hsnap as (l1 & l2 & Hsnap).
  destruct walk_length as [Hlen_i _].
  destruct (walk_transition_none n) as [Hnone_i Hnone_p].
  destruct (Hlen_i l1 ev p2) as (q1 & e1 & Hq1 & Hlen1).
  set (q2 := update_node n (with_style_transition "none") q1).
  assert (transition_none n q2) as HJ2.
  { unfold transition_none, q2. rewrite nodes_update_node, decide_True by done.
    destruct (lookup_lt_is_Some_2 (nodes q1) n) as [x ->]; [lia | done]. }
  destruct (Hnone_i l2 e1 q2 HJ2) as (q3 & e3 & Hq3 & HJ3).
  destruct (Hnone_p
              (if bubbles ev
               then ancestors (length (nodes p2)) (nodes p2) (target ev)
               else []) e3 q3 HJ3) as (q4 & e4 & Hq4 & HJ4).
  assert (dispatchS ev p2 = Some (q4, e4)) as Hd.
  { unfold dispatch, dispatch_with, event_path. rewrite Htg at 1.
    cbn [propagate]. rewrite Hsnap, invoke_all_app, Hq1.
    cbn [invoke_all transitionend_listener l_once l_callback l_node].
    change (callS 2 (TransitionEndListener n) n e1 q1)
      with (Some (q2, e1, JUndefined)).
    cbv iota beta. by rewrite Hq3. }
  exists q4, e4. split; [done|]. split; [done|].
  by apply (dispatch_keeps_listener _ ev e4 p2 q4).
Qed.

Lemma filter_none {A} (P : A -> Prop) `{forall x, Decision (P x)}
    (l : list A) :
  (forall x, x ∈ l -> ~ P x) -> filter P l = [].
Proof.
  induction l as [|x l IH]; intros Hl; [done|].
  rewrite filter_cons_False.
  - apply IH. intros y Hy. apply Hl. by apply list_elem_of_further.
  - apply Hl, list_elem_of_here.
Qed.

Lemma awaiting_snapshot (p : page) (n : nat) :
  awaiting_focus p n ->
  filter (fun l => listens n "focus" l = true) (listeners p)
  = [focus_listener n].
Proof.
  assert (forall l, listens n "focus" l = true -> expands_on n l) as Himp.
  { unfold listens, expands_on. intros l [H1 H2]%andb_true_iff.
    apply bool_decide_eq_true in H1, H2. auto. }
  unfold awaiting_focus. induction (listeners p) as [|x ls IH]; [done|].
  rewrite !filter_cons.
  destruct (decide (expands_on n x)) as [Hx | Hx].
  - intros [= -> Hnil].
    rewrite decide_True by (unfold listens; simpl;
                            by rewrite !bool_decide_eq_true_2).
    f_equal. apply filter_none.
    intros l Hl HQ. apply Himp in HQ.
    by eapply filter_nil_not_elem_of.
  - intros H. rewrite decide_False by (intros HQ; by apply Hx, Himp).
    by apply IH.
Qed.

Lemma awaiting_removed (p : page) (n : nat) :
  awaiting_focus p n ->
  settled n (set_listeners (remove_first (focus_listener n) (listeners p)) p).
Proof.
  unfold awaiting_focus, settled. simpl.
  induction (listeners p) as [|x ls IH];
    [intros H; rewrite filter_nil in H; discriminate|].
  rewrite filter_cons. simpl.
  destruct (decide (x = focus_listener n)) as [-> | Hne].
  - rewrite decide_True by (split; auto).
    intros [= Hnil] l Hl [H1 H2].
    eapply filter_nil_not_elem_of; [exact Hnil | | exact Hl].
    split; auto.
  - destruct (decide (expands_on n x)) as [Hx | Hx].
    + intros [= -> _]. done.
    + intros H l [-> | Hl]%elem_of_cons.
      * intros [H1 H2]. apply Hx. split; auto.
      * by apply IH.
Qed.

(** Once [n] is settled it stays so, and no dispatch changes its
    height style. *)
Lemma walk_settled (n : nat) :
  (forall ls ev p,
     Forall (fun l => ~ (l_node l = n /\ l_callback l = ExpandFocusListener)) ls ->
     settled n p ->
     exists p' ev',
       invoke_all (callS 2) ls ev p = Some (p', ev')
       /\ settled n p'
       /\ style_height <$> nodes p' !! n = style_height <$> nodes p !! n)
  /\ (forall path ev p,
        settled n p ->
        exists p' ev',
          propagate (callS 2) path ev p = Some (p', ev')
          /\ settled n p'
          /\ style_height <$> nodes p' !! n = style_height <$> nodes p !! n).
Proof.
  destruct (walk_preserves
              (fun l => ~ (l_node l = n /\ l_callback l = ExpandFocusListener))
              (fun _ => True) (settled n)
              (fun q q' => style_height <$> nodes q' !! n
                           = style_height <$> nodes q !! n))
    as [Hi Hp]; try done.
  - intros q1 q2 q3 H1 H2. by rewrite H2.
  - intros q l HJ Hin _. by apply HJ.
  - intros l q _ _ HJ. split; [|done].
    intros l0 Hl0. apply HJ. simpl in Hl0.
    by apply remove_first_subseteq in Hl0.
  - intros l e q q' e' v Hl HJ Hc Hcall. split.
    + intros l0 Hl0.
      destruct (leaf_listeners _ _ _ _ _ _ _ Hc Hcall) as [Heq | [_ Heq]];
        rewrite Heq in Hl0; [by apply HJ|].
      apply elem_of_app in Hl0 as [Hl0 | Hl0]; [by apply HJ|].
      apply list_elem_of_singleton in Hl0 as ->. by intros [_ ?].
    + destruct (leaf_nodes _ _ _ _ _ _ _ Hc Hcall)
        as [-> | [[_ ->] | [[Hexp ->] | (t & _ & ->)]]]; [done | | |].
      * by rewrite update_node_field.
      * rewrite nodes_update_node, decide_False; [done|].
        intros Heq. by apply Hl.
      * by rewrite update_node_field.
  - split.
    + intros ls ev p Hls HJ.
      destruct (Hi ls ev p) as (p' & ev' & ? & ? & _ & ?); eauto.
    + intros path ev p HJ.
      destruct (Hp path ev p) as (p' & ev' & ? & ? & ?); eauto.
Qed.

Lemma steps_settled (n : nat) (p p' : page) :
  rtc stepS p p' -> settled n p -> settled n p'.
Proof.
  induction 1 as [|p q r Hstep _ IH]; [done|]. intros HJ. apply IH.
  destruct Hstep as [ev q q' ev' Hd | m e q]; [|done].
  destruct (walk_settled n) as [_ Hp].
  destruct (Hp (event_path q ev) ev q HJ) as (q1 & e1 & Hq1 & HJ1 & _).
  unfold dispatch, dispatch_with in Hd. rewrite Hq1 in Hd.
  by injection Hd as <- <-.
Qed.

(** C6: the first focus event on a textarea.expandable of rendered
    height H, still carrying its one-time focus listener, sets its
    height style to "(H+150)px".  After that, in every later state,
    no event, a further focus on the element in particular, changes
    the height style: the listener is gone. *)
Theorem expandable_focus_once (n : nat) (e : element) (ev : event)
    (p : page) :
  nodes p !! n = Some e ->
  awaiting_focus p n ->
  ev_type ev = "focus" -> target ev = n ->
  exists p1 ev1,
    dispatchS ev p = Some (p1, ev1)
    /\ style_height <$> nodes p1 !! n
       = Some (pretty (offsetHeight e + 150)%N ++ "px")
    /\ (focus_listener n ∉ listeners p1)
    /\ forall p2 ev',
         rtc stepS p1 p2 ->
         exists p3 ev3,
           dispatchS ev' p2 = Some (p3, ev3)
           /\ style_height <$> nodes p3 !! n
              = style_height <$> nodes p2 !! n.
Proof.
  intros He Haw Hty Htg.
  destruct (walk_settled n) as [_ Hp].
  pose proof (awaiting_snapshot p n Haw) as Hsnap.
  pose proof (awaiting_removed p n Haw) as HJ0.
  set (q0 := set_listeners (remove_first (focus_listener n) (listeners p)) p)
    in *.
  set (q1 := (expand_focus_handler n ev q0).1.1).
  assert (settled n q1) as HJ1.
  { intros l Hl. simpl in Hl.
    apply elem_of_app in Hl as [Hl | Hl]; [by apply HJ0|].
    apply list_elem_of_singleton in Hl as ->. by intros [_ ?]. }
  assert (style_height <$> nodes q1 !! n
          = Some (pretty (offsetHeight e + 150)%N ++ "px")) as Hh1.
  { unfold q1, expand_focus_handler. simpl.
    rewrite list_lookup_alter_eq, He. reflexivity. }
  destruct (Hp (if bubbles ev
                then ancestors (length (nodes p)) (nodes p) (target ev)
                else []) ev q1 HJ1) as (q2 & e2 & Hq2 & HJ2 & Hh2).
  assert (dispatchS ev p = Some (q2, e2)) as Hd.
  { unfold dispatch, dispatch_with, event_path. rewrite Htg at 1.
    cbn [propagate]. rewrite Hty, Hsnap.
    cbn [invoke_all focus_listener l_once l_callback l_node].
    change (callS 2 ExpandFocusListener n ev q0)
      with (Some (q1, ev, JUndefined)).
    cbv iota beta. exact Hq2. }
  exists q2, e2. split; [done|]. split; [by rewrite Hh2|]. split.
  - intros Hin. by apply (HJ2 _ Hin).
  - intros p2 ev' Hsteps.
    pose proof (steps_settled n q2 p2 Hsteps HJ2) as HJ3.
    destruct (walk_settled n) as [_ Hp'].
    destruct (Hp' (event_path p2 ev') ev' p2 HJ3) as (q3 & e3 & Hq3 & _ & Hh3).
    exists q3, e3. by split.
Qed.

(** ** The state at load, and before the first focus *)

Lemma Handle_listeners r ty cb once (p : page) :
  listeners (Handle r ty cb once p)
  = (listeners p
     ++ ((fun n => Listener n ty cb once) <$> take 1 (all_matches p r)))%list.
Proof.
  unfold Handle, first_match.
  destruct (all_matches p r); simpl; [by rewrite app_nil_r | done].
Qed.

Lemma Handler_listeners r ty cb once (p : page) :
  listeners (Handler r ty cb once p)
  = (listeners p ++ ((fun n => Listener n ty cb once) <$> all_matches p r))%list.
Proof. unfold Handler. by rewrite Handler_fold. Qed.

Lemma filter_expands_other (n : nat) ty cb once (ms : list nat) :
  ty ≠ "focus" -> cb ≠ ExpandFocusListener ->
  filter (expands_on n) ((fun m => Listener m ty cb once) <$> ms) = [].
Proof.
  intros Hty Hcb. apply filter_none.
  intros l [m [-> _]]%list_elem_of_fmap [_ [H | H]]; done.
Qed.

Lemma filter_expands_focus (n : nat) (ms : list nat) :
  NoDup ms -> n ∈ ms ->
  filter (expands_on n) (focus_listener <$> ms) = [focus_listener n].
Proof.
  induction 1 as [|m ms Hm Hnd IH]; [by intros ?%elem_of_nil|].
  rewrite fmap_cons, filter_cons.
  intros [-> | Hin]%elem_of_cons.
  - rewrite decide_True by (split; auto). f_equal. apply filter_none.
    intros l [k [-> Hk]]%list_elem_of_fmap [Heq _]. simpl in Heq.
    by subst.
  - rewrite decide_False; [by apply IH|].
    intros [Heq _]. simpl in Heq. by subst.
Qed.

(** X15: right after load, every element matching
    "textarea.expandable" carries its one-time focus listener, once,
    and no other listener that hears focus or would resize it. *)
Lemma load_awaiting_focus (ns : list element) (n : nat) :
  matches (load ns) n sel_textarea_expandable = true ->
  awaiting_focus (load ns) n.
Proof.
  intros Hm. unfold awaiting_focus, load, install.
  rewrite !Handler_listeners, !Handle_listeners. simpl listeners.
  rewrite !filter_app.
  rewrite (filter_expands_other n "keypress" KeypressListener),
    (filter_expands_other n "click" SkipperListener),
    (filter_expands_other n "input" InvalidResetListener),
    (filter_expands_other n "input" ArmGuardListener),
    (filter_expands_other n "submit" SubmitListener) by done.
  rewrite filter_nil, !app_nil_r. cbn [app].
  apply (filter_expands_focus n).
  - unfold all_matches. apply NoDup_filter, NoDup_seq.
  - unfold all_matches. apply list_elem_of_filter.
    unfold matches in *.
    destruct (install_frame (Page ns [] JNull [])) as (Hn & _).
    fold (load ns) in Hn. rewrite Hn in Hm.
    repeat match goal with
    | |- context [nodes (Handler ?r ?ty ?cb ?o ?q)] =>
        destruct (Handler_frame r ty cb o q) as (-> & _)
    | |- context [nodes (Handle ?r ?ty ?cb ?o ?q)] =>
        destruct (Handle_frame r ty cb o q) as (-> & _)
    end.
    simpl nodes. split; [done|].
    apply elem_of_seq. split; [lia|]. simpl in Hm |- *.
    destruct (ns !! n) eqn:Hl; [|done]. by apply lookup_lt_Some in Hl.
Qed.

Lemma filter_remove_first (n : nat) (l : listener) (ls : list listener) :
  ~ expands_on n l ->
  filter (expands_on n) (remove_first l ls) = filter (expands_on n) ls.
Proof.
  intros Hl. induction ls as [|x ls IH]; [done|]. simpl.
  destruct (decide (x = l)) as [-> | Hne].
  - by rewrite filter_cons_False.
  - by rewrite !filter_cons, IH.
Qed.

(** X16: an event of any type but focus leaves the pending one-time
    focus listener of an element in place: only a focus uses it up. *)
Lemma dispatch_keeps_awaiting (n : nat) (ev ev' : event) (p p' : page) :
  ev_type ev ≠ "focus" ->
  awaiting_focus p n ->
  dispatchS ev p = Some (p', ev') ->
  awaiting_focus p' n.
Proof.
  intros Hty Haw Hd.
  destruct (dispatch_preserves (fun l => ~ expands_on n l)
              (fun ty => ty ≠ "focus")
              (fun q => awaiting_focus q n) (fun _ _ => True))
    with (ev := ev) (p := p) as (q & ev1 & Hq & HJ & _); try done.
  - intros q l HJ Hin HT Hexp.
    assert (l ∈ filter (expands_on n) (listeners q)) as Hf
      by by apply list_elem_of_filter.
    unfold awaiting_focus in HJ. rewrite HJ in Hf.
    apply list_elem_of_singleton in Hf as ->. by apply HT.
  - intros l q Hl _ HJ. split; [|done]. unfold awaiting_focus in *.
    simpl. by rewrite filter_remove_first.
  - intros l e q q' e' v _ HJ Hc Hcall. split; [|done].
    unfold awaiting_focus in *.
    destruct (leaf_listeners _ _ _ _ _ _ _ Hc Hcall) as [-> | [_ ->]];
      [done|].
    rewrite filter_app, HJ, filter_cons_False, filter_nil; [done|].
    by intros [_ [? | ?]].
  - congruence.
Qed.

(** ** Further properties of the handlers *)

Lemma filter_all {A} (P : A -> Prop) `{forall x, Decision (P x)} (l : list A) :
  (forall x, x ∈ l -> P x) -> filter P l = l.
Proof.
  induction l as [|x l IH]; intros Hl; [done|].
  rewrite filter_cons_True by apply Hl, list_elem_of_here.
  f_equal. apply IH. intros y Hy. by apply Hl, list_elem_of_further.
Qed.

Lemma classList_remove_absent (k : string) (e : element) :
  k ∉ classList e -> classList_remove k e = e.
Proof.
  intros Hk. unfold classList_remove. rewrite filter_all.
  - by destruct e.
  - intros c Hc ->. by apply Hk.
Qed.

Lemma update_node_id (n : nat) (f : element -> element) (p : page) :
  (forall e, nodes p !! n = Some e -> f e = e) -> update_node n f p = p.
Proof.
  intros Hf. unfold update_node, set_nodes.
  replace (alter f n (nodes p)) with (nodes p); [by destruct p|].
  apply list_eq. intros i. rewrite list_lookup_alter.
  destruct (decide (n = i)) as [<-|]; [|done].
  destruct (nodes p !! n) as [e|] eqn:He; [|done]. simpl. by rewrite Hf.
Qed.

(** X1: [classList.remove] of a class that is not there changes
    nothing, so the input handler leaves the page as it is on an
    element without "is-invalid"; run twice, the handler does what it
    does run once; and it touches no element but its own. *)
Theorem invalid_reset_idempotent (this : nat) (ev ev' : event) (p : page) :
  ((forall e, nodes p !! this = Some e -> "is-invalid" ∉ classList e) ->
   invalid_reset_handler this ev p = (p, ev, JUndefined))
  /\ invalid_reset_handler this ev' (invalid_reset_handler this ev p).1.1
     = ((invalid_reset_handler this ev p).1.1, ev', JUndefined)
  /\ forall m, m ≠ this ->
       nodes (invalid_reset_handler this ev p).1.1 !! m = nodes p !! m.
Proof.
  assert (forall q e0,
            (forall e, nodes q !! this = Some e -> "is-invalid" ∉ classList e) ->
            invalid_reset_handler this e0 q = (q, e0, JUndefined)) as Hid.
  { intros q e0 Hq. unfold invalid_reset_handler. rewrite update_node_id; [done|].
    intros e He. apply classList_remove_absent. by apply Hq. }
  split; [apply Hid|]. split.
  - apply Hid. intros e He.
    change ((invalid_reset_handler this ev p).1.1)
      with (update_node this (classList_remove "is-invalid") p) in He.
    rewrite nodes_update_node, decide_True in He by done.
    destruct (nodes p !! this) as [e0|]; [|done].
    injection He as <-. simpl. by intros [H _]%list_elem_of_filter.
  - intros m Hm.
    change ((invalid_reset_handler this ev p).1.1)
      with (update_node this (classList_remove "is-invalid") p).
    rewrite nodes_update_node, decide_False; done.
Qed.

(** X2: on an element without a [data-href] attribute the click
    handler still navigates: [getAttribute] gives null and
    [location.replace(null)] is called.  The event is not cancelled. *)
Theorem skipper_without_href (this : nat) (ev : event) (p : page)
    (e : element) :
  nodes p !! this = Some e ->
  attributes e !! "data-href" = None ->
  skipper_handler this ev p = (emit (Replaced JNull) p, ev, JUndefined).
Proof.
  intros He Hx. unfold skipper_handler, getAttribute.
  rewrite He. simpl. by rewrite Hx.
Qed.

(** X3: the unload hook has one slot and the last input wins.  After
    input on textarea [a] and then on textarea [b], the guard watches
    [b] alone: with [b] empty at unload it returns null, whatever [a]
    holds. *)
Theorem arm_guard_last_writer_wins (a b : nat) (ev1 ev2 : event) (p : page) :
  onbeforeunload (arm_guard_handler b ev2 (arm_guard_handler a ev1 p).1.1).1.1
  = JFun (ValueGuard b)
  /\ forall q : page,
       onbeforeunload q = JFun (ValueGuard b) ->
       truthy (get_value q b) = false ->
       beforeunload q = Some JNull.
Proof.
  split; [reflexivity|]. intros q Hq Hb.
  unfold beforeunload. rewrite Hq. unfold value_guard.
  by rewrite js_or_falsy.
Qed.

(** X4: [new Event("click")] does not bubble.  When no click listener
    is bound to the target itself, the keypress handler cancels the
    key event, dispatches the click, and that is all: click listeners
    bound to ancestors of the target do not run. *)
Theorem synthetic_click_stays_on_target (fuel this : nat) (ev : event)
    (p : page) :
  matches p (target ev) sel_key_clickable = true ->
  key ev = JStr " " \/ key ev = JStr "Enter" ->
  filter (fun l => listens (target ev) "click" l = true) (listeners p) = [] ->
  callS (S (S fuel)) KeypressListener this ev p
  = Some (emit (Dispatched (target ev) "click") p, preventDefault ev, JUndefined).
Proof.
  intros Hm Hk Hnone. rewrite call_fuel.
  change (callS 2 KeypressListener this ev p)
    with (keypress_handler (dispatchEvent_with (callS 1)) ev p).
  unfold keypress_handler. rewrite Hm.
  assert (strict_eq (key ev) (JStr " ") || strict_eq (key ev) (JStr "Enter")
          = true) as ->.
  { unfold strict_eq. destruct Hk as [-> | ->]; reflexivity. }
  simpl andb. cbv iota.
  unfold dispatchEvent_with, dispatch_with, event_path.
  cbn [new_Event bubbles target preventDefault ev_type propagate emit listeners].
  rewrite Hnone. reflexivity.
Qed.

(** X5: the two bindings compose.  When the only click listener bound
    to the target is the content skipper's and the target's
    [data-href] is [X], pressing Space or Enter on it cancels the key
    event, dispatches the click and navigates to [X], in that order. *)
Theorem keypress_activates_skipper (fuel this : nat) (ev : event) (p : page)
    (e : element) (X : string) :
  matches p (target ev) sel_key_clickable = true ->
  key ev = JStr " " \/ key ev = JStr "Enter" ->
  filter (fun l => listens (target ev) "click" l = true) (listeners p)
  = [Listener (target ev) "click" SkipperListener false] ->
  nodes p !! target ev = Some e ->
  attributes e !! "data-href" = Some X ->
  callS (S (S fuel)) KeypressListener this ev p
  = Some (emit (Replaced (JStr X)) (emit (Dispatched (target ev) "click") p),
          preventDefault ev, JUndefined).
Proof.
  intros Hm Hk Hone He HX. rewrite call_fuel.
  change (callS 2 KeypressListener this ev p)
    with (keypress_handler (dispatchEvent_with (callS 1)) ev p).
  unfold keypress_handler. rewrite Hm.
  assert (strict_eq (key ev) (JStr " ") || strict_eq (key ev) (JStr "Enter")
          = true) as ->.
  { unfold strict_eq. destruct Hk as [-> | ->]; reflexivity. }
  simpl andb. cbv iota.
  unfold dispatchEvent_with, dispatch_with, event_path.
  cbn [new_Event bubbles target preventDefault ev_type propagate emit listeners].
  rewrite Hone.
  cbn [invoke_all l_once l_callback l_node call].
  unfold skipper_handler, getAttribute.
  cbn [emit nodes]. rewrite He. simpl. by rewrite HX.
Qed.

(** X6: a synthetic click never leads to another one, so two levels of
    nesting are all a dispatch can use: with any larger budget the
    dispatch is the same, and it always returns. *)
Theorem dispatch_fuel (fuel : nat) (ev : event) (p : page) :
  dispatch_with (callS (S (S fuel))) ev p = dispatchS ev p
  /\ is_Some (dispatchS ev p).
Proof.
  split; [|apply dispatch_total].
  unfold dispatch, dispatch_with.
  apply (propagate_agree (callS (S (S fuel))) (callS 2) (fun _ => True));
    [|done|done].
  intros c this' e q _. apply call_fuel.
Qed.

(** ** What a dispatch leaves alone *)

(** X7: whatever the event and the listeners, a dispatch returns and
    the handlers leave every element's tag, parent, value and
    attributes other than class and style as they were, and remove or
    add no element: the script never edits what the user typed.  (The
    class list and the inline style are what lines 17, 21 and 23
    write; the rendered height follows the style at the next layout.) *)
Theorem dispatch_keeps_user_data (ev : event) (p : page) :
  exists p' ev',
    dispatchS ev p = Some (p', ev')
    /\ length (nodes p') = length (nodes p)
    /\ forall m, untouched <$> nodes p' !! m = untouched <$> nodes p !! m.
Proof.
  destruct (dispatch_preserves (fun _ => True) (fun _ => True)
              (fun _ => True)
              (fun q q' => length (nodes q') = length (nodes q)
                           /\ forall m, untouched <$> nodes q' !! m
                                        = untouched <$> nodes q !! m))
    with (ev := ev) (p := p) as (p' & ev' & Hd & _ & HR); try done.
  - intros q1 q2 q3 [H1 H1'] [H2 H2']. split; [by rewrite H2|].
    intros m. by rewrite H2'.
  - intros l e q q' e' v _ _ Hc Hcall. split; [done|].
    destruct (leaf_nodes _ _ _ _ _ _ _ Hc Hcall)
      as [-> | [[_ ->] | [[_ ->] | (t & _ & ->)]]]; [done | | |];
      (split; [apply length_nodes_update_node|]);
      intros m; by rewrite update_node_field.
  - eauto.
Qed.

(** X8: a dispatch never adds a class and removes none but
    "is-invalid": afterwards each element's class list is the one it
    had, or that one without "is-invalid". *)
Theorem dispatch_classes_shrink (ev : event) (p : page) :
  exists p' ev',
    dispatchS ev p = Some (p', ev')
    /\ forall m e',
         nodes p' !! m = Some e' ->
         exists e,
           nodes p !! m = Some e
           /\ (classList e' = classList e
               \/ classList e'
                  = filter (fun c => c ≠ "is-invalid") (classList e)).
Proof.
  destruct (dispatch_preserves (fun _ => True) (fun _ => True)
              (fun _ => True)
              (fun q q' =>
                 forall m e',
                   nodes q' !! m = Some e' ->
                   exists e,
                     nodes q !! m = Some e
                     /\ (classList e' = classList e
                         \/ classList e'
                            = filter (fun c => c ≠ "is-invalid") (classList e))))
    with (ev := ev) (p := p) as (p' & ev' & Hd & _ & HR); try done.
  - intros q m e' He'. exists e'. auto.
  - intros q1 q2 q3 H1 H2 m e3 He3.
    destruct (H2 m e3 He3) as (e2 & He2 & H23).
    destruct (H1 m e2 He2) as (e1 & He1 & H12).
    exists e1. split; [done|].
    destruct H23 as [-> | ->], H12 as [-> | ->]; auto.
    right. apply filter_all. by intros c [Hc _]%list_elem_of_filter.
  - intros l q _ _ _. split; [done|]. intros m e' He'. exists e'. auto.
  - intros l e q q' e' v _ _ Hc Hcall. split; [done|].
    intros m e1 He1.
    destruct (leaf_nodes _ _ _ _ _ _ _ Hc Hcall)
      as [Heq | [[_ ->] | [[_ Heq] | (t & _ & ->)]]].
    + rewrite Heq in He1. eauto.
    + rewrite nodes_update_node in He1.
      destruct (decide (l_node l = m)) as [_|]; [|eauto].
      destruct (nodes q !! m) as [e0|]; [|done].
      injection He1 as <-. exists e0. split; [done|]. by right.
    + rewrite Heq, nodes_update_node in He1.
      destruct (decide (l_node l = m)) as [_|]; [|eauto].
      destruct (nodes q !! m) as [e0|]; [|done].
      injection He1 as <-. exists e0. split; [done|]. by left.
    + rewrite nodes_update_node in He1.
      destruct (decide (t = m)) as [_|]; [|eauto].
      destruct (nodes q !! m) as [e0|]; [|done].
      injection He1 as <-. exists e0. split; [done|]. by left.
  - intros n ty q _. split; [done|]. intros m e' He'. exists e'. auto.
  - eauto.
Qed.

(** ** The registry *)

Lemma load_registry (ns : list element) : registry_wf (load ns).
Proof.
  unfold registry_wf, load, install.
  rewrite !Handler_listeners, !Handle_listeners. simpl listeners.
  rewrite !Forall_app, !Forall_fmap.
  repeat split;
    first [by constructor | apply Forall_forall; intros n _; reflexivity].
Qed.

Lemma registry_once (l : listener) (p : page) :
  registry_wf p ->
  registry_wf (set_listeners (remove_first l (listeners p)) p).
Proof.
  unfold registry_wf. rewrite !Forall_forall. intros H k Hk.
  apply H. simpl in Hk. by apply remove_first_subseteq in Hk.
Qed.

Lemma registry_leaf (c : closure) (this : nat) (ev ev' : event) (p p' : page)
    (v : jsval) :
  c ≠ KeypressListener ->
  callS 1 c this ev p = Some (p', ev', v) ->
  registry_wf p -> registry_wf p'.
Proof.
  intros Hc Hcall Hp. unfold registry_wf in *.
  destruct (leaf_listeners _ _ _ _ _ _ _ Hc Hcall) as [-> | [_ ->]]; [done|].
  apply Forall_app. split; [done|]. apply Forall_singleton.
  unfold is_script_binding. simpl. by rewrite bool_decide_eq_true_2.
Qed.

Lemma dispatch_registry (ev ev' : event) (p p' : page) :
  registry_wf p -> dispatchS ev p = Some (p', ev') -> registry_wf p'.
Proof.
  intros Hp Hd.
  destruct (dispatch_preserves (fun _ => True) (fun _ => True)
              registry_wf (fun _ _ => True))
    with (ev := ev) (p := p) as (q & ev1 & Hq & HJ & _); try done.
  - intros l q _ _ HJ. split; [by apply registry_once | done].
  - intros l e q q' e' v _ HJ Hc Hcall. split; [|done].
    by apply (registry_leaf _ _ _ _ _ _ _ Hc Hcall).
  - congruence.
Qed.

Lemma reachable_registry_wf (p : page) : reachableS p -> registry_wf p.
Proof.
  induction 1 as [ns | p p' Hp IH Hstep]; [apply load_registry|].
  destruct Hstep as [ev q q' ev' Hd | n e q]; [|exact IH].
  by apply (dispatch_registry ev ev' q q').
Qed.

(** X9: in every state reachable from page load the registry holds
    nothing but the script's own seven kinds of binding, each under
    the event type it was written for; the only one-time listeners
    are the focus listeners of line 20. *)
Theorem reachable_registry (p : page) (l : listener) :
  reachableS p ->
  l ∈ listeners p ->
  is_script_binding l = true
  /\ (l_once l = true ->
      l_type l = "focus" /\ l_callback l = ExpandFocusListener).
Proof.
  intros Hp Hl.
  pose proof (reachable_registry_wf p Hp) as Hwf.
  unfold registry_wf in Hwf. rewrite Forall_forall in Hwf.
  specialize (Hwf l Hl). split; [done|]. intros Ho.
  unfold is_script_binding in Hwf. rewrite Ho in Hwf.
  destruct (l_callback l); simpl in Hwf;
    rewrite ?andb_false_r in Hwf; try done.
  apply andb_true_iff in Hwf as [Hty _].
  by apply bool_decide_eq_true in Hty.
Qed.

(** X10: in a reachable state only input and submit events write the
    unload hook: any other event, a keypress with its synthetic click
    included, leaves [window.onbeforeunload] as it was. *)
Theorem guard_written_on_input_and_submit_only (p : page) (ev : event) :
  reachableS p ->
  ev_type ev ≠ "input" -> ev_type ev ≠ "submit" ->
  exists p' ev',
    dispatchS ev p = Some (p', ev')
    /\ onbeforeunload p' = onbeforeunload p.
Proof.
  intros Hp Hi Hs.
  destruct (dispatch_preserves
              (fun l => l_callback l ≠ ArmGuardListener
                        /\ l_callback l ≠ SubmitListener)
              (fun ty => ty ≠ "input" /\ ty ≠ "submit")
              registry_wf
              (fun q q' => onbeforeunload q' = onbeforeunload q))
    with (ev := ev) (p := p) as (p' & ev' & Hd & _ & HR); try done.
  - intros q1 q2 q3 H1 H2. by rewrite H2.
  - intros q l HJ Hin [HT1 HT2]. unfold registry_wf in HJ.
    rewrite Forall_forall in HJ. specialize (HJ l Hin).
    unfold is_script_binding in HJ.
    split; intros Hc; rewrite Hc in HJ;
      apply andb_true_iff in HJ as [HJ _];
      by apply bool_decide_eq_true in HJ.
  - intros l q _ _ HJ. split; [by apply registry_once | done].
  - intros l e q q' e' v [Hl1 Hl2] HJ Hc Hcall.
    split; [by apply (registry_leaf _ _ _ _ _ _ _ Hc Hcall)|].
    destruct (leaf_guard _ _ _ _ _ _ _ Hc Hcall) as [-> | [[? _] | [? _]]];
      done.
  - by apply reachable_registry_wf.
  - eauto.
Qed.

(** The four handlers that leave the log and the event alone. *)
Lemma quiet_leaf (c : closure) (this : nat) (ev : event) (p : page) :
  c = InvalidResetListener \/ c = ExpandFocusListener
  \/ (exists t, c = TransitionEndListener t) \/ c = ArmGuardListener ->
  exists p',
    callS 2 c this ev p = Some (p', ev, JUndefined)
    /\ effects p' = effects p
    /\ (registry_wf p -> registry_wf p').
Proof.
  intros [-> | [-> | [[t ->] | ->]]];
    (eexists; split; [reflexivity|]; split; [reflexivity|]; intros Hwf).
  - by apply (registry_leaf InvalidResetListener this ev ev p _ JUndefined).
  - by apply (registry_leaf ExpandFocusListener this ev ev p _ JUndefined).
  - by apply (registry_leaf (TransitionEndListener t) this ev ev p _ JUndefined).
  - by apply (registry_leaf ArmGuardListener this ev ev p _ JUndefined).
Qed.

(** X11: in a reachable state an event that is not a keypress, a click
    or a submit (typing, focus, the end of a transition) runs to the
    end without notifying, navigating or dispatching anything, and is
    never cancelled. *)
Theorem quiet_events (p : page) (ev : event) :
  reachableS p ->
  ev_type ev ≠ "keypress" -> ev_type ev ≠ "click" -> ev_type ev ≠ "submit" ->
  exists p',
    dispatchS ev p = Some (p', ev) /\ effects p' = effects p.
Proof.
  intros Hp Hk Hc Hs.
  destruct (dispatch_with_lift (callS 2)
              (fun l => l_type l = ev_type ev /\ is_script_binding l = true)
              (fun q e => registry_wf q /\ e = ev)
              (fun q q' => effects q' = effects q))
    with (ev := ev) (p := p) as (p' & ev' & Hd & [_ ->] & HR).
  - done.
  - intros q1 q2 q3 H1 H2. by rewrite H2.
  - intros q e l [HJ ->] Hin Hty. split; [done|].
    unfold registry_wf in HJ. rewrite Forall_forall in HJ. by apply HJ.
  - intros l q e _ _ [HJ ->]. split; [|done].
    split; [by apply registry_once | done].
  - intros l e q [Hty Hb] [HJ ->].
    destruct (quiet_leaf (l_callback l) (l_node l) ev q)
      as (q' & Hcall & Heff & Hwf).
    { unfold is_script_binding in Hb.
      destruct (l_callback l) eqn:Hcb; eauto; try done;
        apply andb_true_iff in Hb as [Hb _];
        apply bool_decide_eq_true in Hb; congruence. }
    exists q', ev, JUndefined. auto.
  - split; [by apply reachable_registry_wf | done].
  - exists p'. by split.
Qed.

(** ** Bindings over the life of the page *)

Lemma filter_eq_remove_first (l k : listener) (ls : list listener) :
  l ≠ k ->
  filter (fun x => x = k) (remove_first l ls) = filter (fun x => x = k) ls.
Proof.
  intros Hne. induction ls as [|x ls IH]; [done|]. simpl.
  destruct (decide (x = l)) as [-> | Hx].
  - by rewrite filter_cons_False.
  - by rewrite !filter_cons, IH.
Qed.

Lemma walk_transitionend_count (n : nat) :
  forall path ev p,
    settled n p ->
    exists p' ev',
      propagate (callS 2) path ev p = Some (p', ev')
      /\ settled n p'
      /\ filter (fun l => l = transitionend_listener n) (listeners p')
         = filter (fun l => l = transitionend_listener n) (listeners p).
Proof.
  destruct (walk_preserves
              (fun l => ~ (l_node l = n /\ l_callback l = ExpandFocusListener))
              (fun _ => True) (settled n)
              (fun q q' =>
                 filter (fun l => l = transitionend_listener n) (listeners q')
                 = filter (fun l => l = transitionend_listener n) (listeners q)))
    as [_ Hp]; try done.
  - intros q1 q2 q3 H1 H2. by rewrite H2.
  - intros q l HJ Hin _. by apply HJ.
  - intros l q _ Ho HJ. split.
    + intros l0 Hl0. apply HJ. simpl in Hl0.
      by apply remove_first_subseteq in Hl0.
    + simpl. apply filter_eq_remove_first. intros ->. done.
  - intros l e q q' e' v Hl HJ Hc Hcall. unfold settled in *.
    destruct (leaf_listeners _ _ _ _ _ _ _ Hc Hcall) as [Heq | [Hexp Heq]];
      rewrite Heq; [done|]. split.
    + intros l0 [Hl0 | Hl0]%elem_of_app; [by apply HJ|].
      apply list_elem_of_singleton in Hl0 as ->. by intros [_ ?].
    + rewrite filter_app, filter_cons_False, filter_nil, app_nil_r; [done|].
      intros [= Heq']. by apply Hl.
  - intros path ev p HJ.
    destruct (Hp path ev p) as (p' & ev' & ? & ? & ?); eauto.
Qed.

Lemma steps_transitionend_count (n : nat) (p p' : page) :
  rtc stepS p p' -> settled n p ->
  filter (fun l => l = transitionend_listener n) (listeners p')
  = filter (fun l => l = transitionend_listener n) (listeners p).
Proof.
  induction 1 as [|p q r Hstep Hsteps IH]; [done|]. intros HJ.
  destruct Hstep as [ev q q' ev' Hd | m e q]; [|by apply IH].
  destruct (walk_transitionend_count n (event_path q ev) ev q HJ)
    as (q1 & e1 & Hq1 & HJ1 & Hc1).
  unfold dispatch, dispatch_with in Hd. rewrite Hq1 in Hd.
  injection Hd as <- <-. rewrite IH by done. exact Hc1.
Qed.

(** X12: focus never stacks up listeners.  The first focus on a
    textarea that awaits it, and has no transitionend listener yet,
    leaves it with exactly one; and in every later state, whatever
    events came in between, it still has exactly that one. *)
Theorem transitionend_listener_unique (n : nat) (ev : event) (p : page) :
  awaiting_focus p n ->
  transitionend_listener n ∉ listeners p ->
  ev_type ev = "focus" -> target ev = n ->
  exists p1 ev1,
    dispatchS ev p = Some (p1, ev1)
    /\ forall p2,
         rtc stepS p1 p2 ->
         filter (fun l => l = transitionend_listener n) (listeners p2)
         = [transitionend_listener n].
Proof.
  intros Haw Hnot Hty Htg.
  pose proof (awaiting_snapshot p n Haw) as Hsnap.
  pose proof (awaiting_removed p n Haw) as HJ0.
  set (q0 := set_listeners (remove_first (focus_listener n) (listeners p)) p)
    in *.
  set (q1 := (expand_focus_handler n ev q0).1.1).
  assert (settled n q1) as HJ1.
  { intros l Hl. simpl in Hl.
    apply elem_of_app in Hl as [Hl | Hl]; [by apply HJ0|].
    apply list_elem_of_singleton in Hl as ->. by intros [_ ?]. }
  assert (filter (fun l => l = transitionend_listener n) (listeners q1)
          = [transitionend_listener n]) as Hc1.
  { simpl. rewrite filter_app, filter_cons_True, filter_nil by done.
    rewrite filter_none; [done|].
    intros l Hl ->. apply remove_first_subseteq in Hl. by apply Hnot. }
  destruct (walk_transitionend_count n
              (if bubbles ev
               then ancestors (length (nodes p)) (nodes p) (target ev)
               else []) ev q1 HJ1) as (q2 & e2 & Hq2 & HJ2 & Hc2).
  assert (dispatchS ev p = Some (q2, e2)) as Hd.
  { unfold dispatch, dispatch_with, event_path. rewrite Htg at 1.
    cbn [propagate]. rewrite Hty, Hsnap.
    cbn [invoke_all focus_listener l_once l_callback l_node].
    change (callS 2 ExpandFocusListener n ev q0)
      with (Some (q1, ev, JUndefined)).
    cbv iota beta. exact Hq2. }
  exists q2, e2. split; [done|]. intros p2 Hsteps.
  rewrite (steps_transitionend_count n q2 p2 Hsteps HJ2). by rewrite Hc2.
Qed.

Lemma elem_of_all_matches (q : page) (n : nat) (s : selector) :
  matches q n s = true -> n ∈ all_matches q (Selector s).
Proof.
  intros Hm. unfold all_matches. apply list_elem_of_filter. split; [done|].
  apply elem_of_seq. split; [lia|]. simpl. unfold matches in Hm.
  destruct (nodes q !! n) eqn:Hl; [|done]. by apply lookup_lt_Some in Hl.
Qed.

Lemma matches_nodes (q q' : page) (n : nat) (s : selector) :
  nodes q = nodes q' -> matches q n s = matches q' n s.
Proof. unfold matches. by intros ->. Qed.

Lemma load_binds_invalid (ns : list element) (n : nat) :
  matches (load ns) n sel_input_invalid = true ->
  Listener n "input" InvalidResetListener false ∈ listeners (load ns).
Proof.
  intros Hm. unfold load, install.
  rewrite !Handler_listeners, !Handle_listeners.
  do 3 (apply elem_of_app; left). apply elem_of_app; right.
  apply list_elem_of_fmap. exists n. split; [done|].
  apply elem_of_all_matches. rewrite <- Hm. apply matches_nodes.
  destruct (install_frame (Page ns [] JNull [])) as (Hn & _).
  fold (load ns) in Hn. rewrite Hn.
  repeat match goal with
  | |- context [nodes (Handler ?r ?ty ?cb ?o ?q)] =>
      destruct (Handler_frame r ty cb o q) as (-> & _)
  | |- context [nodes (Handle ?r ?ty ?cb ?o ?q)] =>
      destruct (Handle_frame r ty cb o q) as (-> & _)
  end.
  done.
Qed.

(** An element that is not marked invalid is not marked by the script. *)
Lemma walk_clean (n : nat) :
  (forall ls ev p,
     clean n p ->
     exists p' ev', invoke_all (callS 2) ls ev p = Some (p', ev') /\ clean n p')
  /\ (forall path ev p,
        clean n p ->
        exists p' ev',
          propagate (callS 2) path ev p = Some (p', ev') /\ clean n p').
Proof.
  destruct (walk_preserves (fun _ => True) (fun _ => True)
              (clean n) (fun _ _ => True))
    as [Hi Hp]; try done.
  - intros l e q q' e' v _ (e0 & He0 & Hcl) Hc Hcall. split; [|done].
    unfold clean.
    destruct (leaf_nodes _ _ _ _ _ _ _ Hc Hcall)
      as [-> | [[_ ->] | [[_ ->] | (t & _ & ->)]]]; [by eauto | | |];
      rewrite nodes_update_node, He0;
      match goal with
      | |- context [decide (?a = n)] => destruct (decide (a = n))
      end; simpl; eauto.
    eexists. split; [done|]. simpl. by intros [_ ?]%list_elem_of_filter.
  - split.
    + intros ls ev p HJ.
      destruct (Hi ls ev p) as (p' & ev' & ? & ? & _); eauto.
      by apply Forall_forall.
    + intros path ev p HJ.
      destruct (Hp path ev p) as (p' & ev' & ? & ? & _); eauto.
Qed.

(** X13: the invalid-input reset works for the whole life of the
    page.  For an element that matched "input.is-invalid" at load, and
    in any later state (the class may have been put back from
    outside), an input event on the element runs to the end and leaves
    it without "is-invalid". *)
Theorem loaded_input_reset (ns : list element) (n : nat) (p : page)
    (ev : event) :
  matches (load ns) n sel_input_invalid = true ->
  rtc stepS (load ns) p ->
  ev_type ev = "input" -> target ev = n ->
  exists p' ev' e',
    dispatchS ev p = Some (p', ev')
    /\ nodes p' !! n = Some e'
    /\ ("is-invalid" ∉ classList e').
Proof.
  intros Hm Hsteps Hty Htg.
  set (L := Listener n "input" InvalidResetListener false).
  assert (L ∈ listeners p) as Hin.
  { apply (steps_keep_listener L _ _ eq_refl Hsteps).
    by apply load_binds_invalid. }
  assert (n < length (nodes p)) as Hlen.
  { rewrite (steps_length _ _ Hsteps). unfold matches in Hm.
    destruct (nodes (load ns) !! n) eqn:Hl; [|done].
    by apply lookup_lt_Some in Hl. }
  assert (L ∈ filter (fun l => listens n (ev_type ev) l = true) (listeners p))
    as Hsnap.
  { apply list_elem_of_filter. split; [|done]. rewrite Hty.
    unfold listens. simpl. by rewrite !bool_decide_eq_true_2. }
  apply list_elem_of_split in Hsnap as (l1 & l2 & Hsnap).
  destruct walk_length as [Hlen_i _].
  destruct (walk_clean n) as [Hcl_i Hcl_p].
  destruct (Hlen_i l1 ev p) as (q1 & e1 & Hq1 & Hlen1).
  set (q2 := update_node n (classList_remove "is-invalid") q1).
  assert (clean n q2) as HJ2.
  { unfold clean, q2. rewrite nodes_update_node, decide_True by done.
    destruct (lookup_lt_is_Some_2 (nodes q1) n) as [x ->]; [lia|].
    eexists. split; [done|]. simpl. by intros [? _]%list_elem_of_filter. }
  destruct (Hcl_i l2 e1 q2 HJ2) as (q3 & e3 & Hq3 & HJ3).
  destruct (Hcl_p
              (if bubbles ev
               then ancestors (length (nodes p)) (nodes p) (target ev)
               else []) e3 q3 HJ3) as (q4 & e4 & Hq4 & (e' & He' & Hcl)).
  exists q4, e4, e'. split; [|done].
  unfold dispatch, dispatch_with, event_path. rewrite Htg at 1.
  cbn [propagate]. rewrite Hsnap, invoke_all_app, Hq1.
  subst L. cbn [invoke_all l_once l_callback l_node].
  change (callS 2 InvalidResetListener n e1 q1)
    with (Some (q2, e1, JUndefined)).
  cbv iota beta. by rewrite Hq3.
Qed.

(** X14: in a reachable state a keypress, a click or a submit changes
    no element and no binding: all such an event can do is cancel
    itself, write the log and write the unload hook. *)
Theorem activation_leaves_dom_alone (p : page) (ev : event) :
  reachableS p ->
  ev_type ev = "keypress" \/ ev_type ev = "click" \/ ev_type ev = "submit" ->
  exists p' ev',
    dispatchS ev p = Some (p', ev')
    /\ nodes p' = nodes p /\ listeners p' = listeners p.
Proof.
  intros Hp Hty.
  destruct (dispatch_preserves
              (fun l => l_once l = false
                        /\ (l_callback l = KeypressListener
                            \/ l_callback l = SkipperListener
                            \/ l_callback l = SubmitListener))
              (fun ty => ty = "keypress" \/ ty = "click" \/ ty = "submit")
              registry_wf
              (fun q q' => nodes q' = nodes q /\ listeners q' = listeners q))
    with (ev := ev) (p := p) as (p' & ev' & Hd & _ & HR); try done.
  - intros q1 q2 q3 [H1 H1'] [H2 H2']. split; congruence.
  - auto.
  - intros q l HJ Hin HT. unfold registry_wf in HJ.
    rewrite Forall_forall in HJ. specialize (HJ l Hin).
    unfold is_script_binding in HJ.
    destruct (l_callback l); try done;
      repeat (apply andb_true_iff in HJ as [HJ ?]);
      apply bool_decide_eq_true in HJ;
      try (destruct HT as [HT | [HT | HT]]; congruence);
      (split; [by apply negb_true_iff | auto]).
  - intros l q [Ho _] Ho'. congruence.
  - intros l e q q' e' v [_ Hl] HJ Hc Hcall.
    split; [by apply (registry_leaf _ _ _ _ _ _ _ Hc Hcall)|].
    destruct Hl as [Hl | [Hl | Hl]]; [done | |]; rewrite Hl in Hcall;
      simpl in Hcall.
    + by injection Hcall as <- <- <-.
    + unfold submit_handler in Hcall.
      repeat case_match; by injection Hcall as <- <- <-.
  - by apply reachable_registry_wf.
  - eauto.
Qed.

End Properties.

(** * The properties on the sample page *)

Lemma submit_invalid_blocks_witness :
  querySelector sample_page 2 sel_user_content_edit = Some 4
  /\ truthy (get_value sample_page 4) = true
  /\ sample_isValidText (get_value sample_page 4) = false
  /\ exists p',
       submit_handler sample_gettext sample_isValidText 2
         (sample_event "submit" 2) sample_page
       = (p', preventDefault (sample_event "submit" 2), JBool false)
       /\ effects p'
          = [Notified "this content includes forbidden characters." "error"]
       /\ onbeforeunload p' = JFun AlwaysGuard.
Proof.
  split; [vm_compute; reflexivity|].
  split; [vm_compute; reflexivity|].
  split; [vm_compute; reflexivity|].
  destruct (submit_invalid_blocks sample_gettext sample_isValidText 2 4
              (sample_event "submit" 2) sample_page)
    as (p' & H1 & H2 & H3 & _); [vm_compute; reflexivity ..|].
  exists p'. split; [exact H1|]. split; [exact H2 | exact H3].
Defined.

Lemma submit_clears_guard_witness :
  querySelector sample_page_plain 2 sel_user_content_edit = Some 4
  /\ sample_isValidText (get_value sample_page_plain 4) = true
  /\ submit_handler sample_gettext sample_isValidText 2
       (sample_event "submit" 2)
       (set_onbeforeunload (JFun (ValueGuard 4)) sample_page_plain)
     = (sample_page_plain, sample_event "submit" 2, JUndefined).
Proof.
  split; [vm_compute; reflexivity|].
  split; [vm_compute; reflexivity|].
  destruct (submit_clears_guard sample_gettext sample_isValidText 2
              (sample_event "submit" 2)
              (set_onbeforeunload (JFun (ValueGuard 4)) sample_page_plain))
    as (_ & _ & H).
  destruct H as [H _].
  - right. exists 4. split; [vm_compute; reflexivity|].
    right. vm_compute. reflexivity.
  - exact H.
Defined.

Lemma unload_guard_invariant_witness :
  exists p1 ev1 p2 ev2,
    dispatch sample_gettext sample_isValidText (sample_event "input" 4)
      sample_page
    = Some (p1, ev1)
    /\ dispatch sample_gettext sample_isValidText (sample_event "submit" 2) p1
       = Some (p2, ev2)
    /\ reachable sample_gettext sample_isValidText p1
    /\ reachable sample_gettext sample_isValidText p2
    /\ onbeforeunload sample_page = JNull
    /\ onbeforeunload p1 = JFun (ValueGuard 4)
    /\ onbeforeunload p2 = JFun AlwaysGuard
    /\ (onbeforeunload p1 = JNull
        \/ (exists this, onbeforeunload p1 = JFun (ValueGuard this))
        \/ onbeforeunload p1 = JFun AlwaysGuard)
    /\ (onbeforeunload p2 = JNull
        \/ (exists this, onbeforeunload p2 = JFun (ValueGuard this))
        \/ onbeforeunload p2 = JFun AlwaysGuard).
Proof.
  destruct (dispatch sample_gettext sample_isValidText
              (sample_event "input" 4) sample_page)
    as [[p1 ev1]|] eqn:H1; [|vm_compute in H1; discriminate].
  destruct (dispatch sample_gettext sample_isValidText
              (sample_event "submit" 2) p1)
    as [[p2 ev2]|] eqn:H2.
  - assert (reachable sample_gettext sample_isValidText p1) as R1.
    { apply (reachable_step _ _ sample_page p1); [apply reachable_load|].
      exact (step_event _ _ _ _ _ _ H1). }
    assert (reachable sample_gettext sample_isValidText p2) as R2.
    { apply (reachable_step _ _ p1 p2); [exact R1|].
      exact (step_event _ _ _ _ _ _ H2). }
    exists p1, ev1, p2, ev2.
    split; [reflexivity|]. split; [exact H2|].
    split; [exact R1|]. split; [exact R2|].
    split; [vm_compute; reflexivity|].
    split; [vm_compute in H1; injection H1 as <- _; reflexivity|].
    split.
    { vm_compute in H1. injection H1 as <- _.
      vm_compute in H2. injection H2 as <- _. reflexivity. }
    split.
    + exact (unload_guard_invariant sample_gettext sample_isValidText p1 R1).
    + exact (unload_guard_invariant sample_gettext sample_isValidText p2 R2).
  - exfalso. vm_compute in H1. injection H1 as <- _.
    vm_compute in H2. discriminate.
Defined.

Lemma keypress_synthesizes_click_witness :
  matches sample_page 5 sel_key_clickable = true
  /\ exists p' rest,
       call sample_gettext sample_isValidText 2 KeypressListener 0
         (sample_keypress 5 " ") sample_page
       = Some (p', preventDefault (sample_keypress 5 " "), JUndefined)
       /\ effects p' = Dispatched 5 "click" :: rest.
Proof.
  split; [vm_compute; reflexivity|].
  destruct (keypress_synthesizes_click sample_gettext sample_isValidText 0 0
              (sample_keypress 5 " ") sample_page)
    as (p' & rest & H1 & _ & H2 & _);
    [vm_compute; reflexivity | left; reflexivity |].
  exists p', rest. split; [exact H1 | exact H2].
Defined.

Lemma input_arms_value_guard_witness :
  onbeforeunload (set_onbeforeunload (JFun (ValueGuard 4)) sample_page)
  = JFun (ValueGuard 4)
  /\ exists r,
       beforeunload (set_onbeforeunload (JFun (ValueGuard 4)) sample_page)
       = Some r
       /\ truthy r = true.
Proof.
  split; [reflexivity|].
  destruct (input_arms_value_guard 4 (sample_event "input" 4) sample_page)
    as (_ & H).
  destruct (H (set_onbeforeunload (JFun (ValueGuard 4)) sample_page) eq_refl)
    as (r & H1 & H2 & _).
  exists r. split; [exact H1|]. rewrite H2. vm_compute. reflexivity.
Defined.

Lemma skipper_replaces_location_witness :
  getAttribute sample_page 1 "data-href" = JStr "/entry/1"
  /\ effects (skipper_handler 1 (sample_event "click" 1) sample_page).1.1
     = [Replaced (JStr "/entry/1")].
Proof.
  split; [vm_compute; reflexivity|].
  destruct (skipper_replaces_location 1 (sample_event "click" 1) sample_page
              sample_link "/entry/1")
    as (_ & H); [vm_compute; reflexivity ..|].
  exact H.
Defined.

Lemma input_removes_is_invalid_witness :
  matches sample_page 3 sel_input_invalid = true
  /\ exists e',
       nodes (invalid_reset_handler 3 (sample_event "input" 3) sample_page).1.1
         !! 3 = Some e'
       /\ ("is-invalid" ∉ classList e').
Proof.
  split; [vm_compute; reflexivity|].
  destruct (input_removes_is_invalid 3 (sample_event "input" 3) sample_page
              sample_input)
    as (e' & H1 & H2 & _); [vm_compute; reflexivity|].
  exists e'. split; [exact H1 | exact H2].
Defined.

Lemma keypress_no_effect_witness :
  matches sample_page 3 sel_key_clickable = false
  /\ call sample_gettext sample_isValidText 2 KeypressListener 0
       (sample_keypress 3 "Enter") sample_page
     = Some (sample_page, sample_keypress 3 "Enter", JUndefined).
Proof.
  split; [vm_compute; reflexivity|].
  apply (keypress_no_effect sample_gettext sample_isValidText 1 0
           (sample_keypress 3 "Enter") sample_page).
  left. vm_compute. reflexivity.
Defined.

Lemma expandable_focus_once_witness :
  nodes sample_page !! 4 = Some (sample_textarea "merhaba<")
  /\ awaiting_focus sample_page 4
  /\ exists p1 ev1,
       dispatch sample_gettext sample_isValidText (sample_focus 4) sample_page
       = Some (p1, ev1)
       /\ style_height <$> nodes p1 !! 4 = Some "350px"
       /\ exists p3 ev3,
            dispatch sample_gettext sample_isValidText (sample_focus 4) p1
            = Some (p3, ev3)
            /\ style_height <$> nodes p3 !! 4 = style_height <$> nodes p1 !! 4.
Proof.
  split; [vm_compute; reflexivity|].
  split; [vm_compute; reflexivity|].
  destruct (expandable_focus_once sample_gettext sample_isValidText 4
              (sample_textarea "merhaba<") (sample_focus 4) sample_page)
    as (p1 & ev1 & H1 & H2 & _ & H3);
    [vm_compute; reflexivity | vm_compute; reflexivity
     | reflexivity | reflexivity |].
  exists p1, ev1. split; [exact H1|]. split; [exact H2|].
  apply (H3 p1 (sample_focus 4)). apply rtc_refl.
Defined.

Lemma transitionend_listener_persists_witness :
  nodes sample_page !! 4 = Some (sample_textarea "merhaba<")
  /\ exists p3 ev3,
       dispatch sample_gettext sample_isValidText
         (sample_event "transitionend" 4)
         (expand_focus_handler 4 (sample_focus 4) sample_page).1.1
       = Some (p3, ev3)
       /\ style_transition <$> nodes p3 !! 4 = Some "none"
       /\ (transitionend_listener 4 ∈ listeners p3).
Proof.
  split; [vm_compute; reflexivity|].
  destruct (transitionend_listener_persists sample_gettext sample_isValidText
              4 (sample_textarea "merhaba<") (sample_focus 4) sample_page)
    as (_ & H); [vm_compute; reflexivity|].
  apply (H _ (sample_event "transitionend" 4)); [apply rtc_refl | done | done].
Defined.

(** C7 as the spec has it fails: on the sample page, after the first
    focus and a first transitionend event on the textarea, the
    listener is still registered; and when the transition style is
    set again from outside, the next transitionend event sets it back
    to "none": the listener has run a second time. *)
Lemma transitionend_listener_not_one_time :
  exists p1 ev1 p2 ev2 p3 ev3,
    dispatch sample_gettext sample_isValidText (sample_focus 4) sample_page
    = Some (p1, ev1)
    /\ dispatch sample_gettext sample_isValidText
         (sample_event "transitionend" 4) p1
       = Some (p2, ev2)
    /\ style_transition <$> nodes p2 !! 4 = Some "none"
    /\ (transitionend_listener 4 ∈ listeners p2)
    /\ style_transition
         <$> nodes (set_nodes (<[4 := sample_textarea "merhaba<"]> (nodes p2)) p2)
             !! 4
       = Some "height 0.4s"
    /\ dispatch sample_gettext sample_isValidText
         (sample_event "transitionend" 4)
         (set_nodes (<[4 := sample_textarea "merhaba<"]> (nodes p2)) p2)
       = Some (p3, ev3)
    /\ style_transition <$> nodes p3 !! 4 = Some "none".
Proof.
  do 6 eexists.
  split; [vm_compute; reflexivity|].
  split; [vm_compute; reflexivity|].
  split; [vm_compute; reflexivity|].
  split; [apply list_elem_of_In; vm_compute; tauto|].
  split; [vm_compute; reflexivity|].
  split; [vm_compute; reflexivity|].
  vm_compute; reflexivity.
Qed.

(** * Further properties on the sample pages *)

Lemma invalid_reset_idempotent_witness :
  (forall e, nodes sample_page !! 5 = Some e -> "is-invalid" ∉ classList e)
  /\ invalid_reset_handler 5 (sample_event "input" 5) sample_page
     = (sample_page, sample_event "input" 5, JUndefined).
Proof.
  assert (forall e, nodes sample_page !! 5 = Some e ->
                    "is-invalid" ∉ classList e) as H.
  { intros e He. vm_compute in He. injection He as <-.
    refine (bool_decide_unpack _ _); vm_compute; exact I. }
  split; [exact H|].
  destruct (invalid_reset_idempotent 5 (sample_event "input" 5)
              (sample_event "input" 5) sample_page) as (Hid & _).
  exact (Hid H).
Defined.

Lemma skipper_without_href_witness :
  nodes sample_page !! 5
  = Some (Element "div" (Some 0) ∅ ["key-clickable"] JUndefined 10 "" "")
  /\ skipper_handler 5 (sample_event "click" 5) sample_page
     = (emit (Replaced JNull) sample_page, sample_event "click" 5, JUndefined).
Proof.
  split; [vm_compute; reflexivity|].
  apply (skipper_without_href 5 (sample_event "click" 5) sample_page
           (Element "div" (Some 0) ∅ ["key-clickable"] JUndefined 10 "" ""));
    vm_compute; reflexivity.
Defined.

Lemma arm_guard_last_writer_wins_witness :
  truthy (get_value (load (sample_document "")) 4) = false
  /\ beforeunload
       (set_onbeforeunload (JFun (ValueGuard 4)) (load (sample_document "")))
     = Some JNull.
Proof.
  split; [vm_compute; reflexivity|].
  destruct (arm_guard_last_writer_wins 3 4 (sample_event "input" 3)
              (sample_event "input" 4) (load (sample_document "")))
    as (_ & H).
  apply H; [reflexivity | vm_compute; reflexivity].
Defined.

Lemma synthetic_click_stays_on_target_witness :
  matches (load sample_nested) 2 sel_key_clickable = true
  /\ filter (fun l => listens 2 "click" l = true) (listeners (load sample_nested))
     = []
  /\ filter (fun l => listens 1 "click" l = true) (listeners (load sample_nested))
     = [Listener 1 "click" SkipperListener false]
  /\ call sample_gettext sample_isValidText 2 KeypressListener 0
       (sample_keypress 2 "Enter") (load sample_nested)
     = Some (emit (Dispatched 2 "click") (load sample_nested),
             preventDefault (sample_keypress 2 "Enter"), JUndefined).
Proof.
  split; [vm_compute; reflexivity|].
  split; [vm_compute; reflexivity|].
  split; [vm_compute; reflexivity|].
  apply (synthetic_click_stays_on_target sample_gettext sample_isValidText 0 0
           (sample_keypress 2 "Enter") (load sample_nested));
    [vm_compute; reflexivity | right; reflexivity | vm_compute; reflexivity].
Defined.

Lemma keypress_activates_skipper_witness :
  matches sample_page 1 sel_key_clickable = true
  /\ filter (fun l => listens 1 "click" l = true) (listeners sample_page)
     = [Listener 1 "click" SkipperListener false]
  /\ call sample_gettext sample_isValidText 2 KeypressListener 0
       (sample_keypress 1 " ") sample_page
     = Some (emit (Replaced (JStr "/entry/1"))
               (emit (Dispatched 1 "click") sample_page),
             preventDefault (sample_keypress 1 " "), JUndefined).
Proof.
  split; [vm_compute; reflexivity|].
  split; [vm_compute; reflexivity|].
  apply (keypress_activates_skipper sample_gettext sample_isValidText 0 0
           (sample_keypress 1 " ") sample_page sample_link "/entry/1");
    [vm_compute; reflexivity | left; reflexivity | vm_compute; reflexivity
     | vm_compute; reflexivity | vm_compute; reflexivity].
Defined.

Lemma reachable_registry_witness :
  reachable sample_gettext sample_isValidText sample_page
  /\ (focus_listener 4 ∈ listeners sample_page)
  /\ is_script_binding (focus_listener 4) = true.
Proof.
  assert (focus_listener 4 ∈ listeners sample_page) as Hin.
  { refine (bool_decide_unpack _ _); vm_compute; exact I. }
  split; [apply reachable_load|]. split; [exact Hin|].
  destruct (reachable_registry sample_gettext sample_isValidText sample_page
              (focus_listener 4)) as [H _];
    [apply reachable_load | exact Hin | exact H].
Defined.

Lemma guard_written_on_input_and_submit_only_witness :
  reachable sample_gettext sample_isValidText sample_page
  /\ exists p' ev',
       dispatch sample_gettext sample_isValidText (sample_keypress 1 "Enter")
         sample_page
       = Some (p', ev')
       /\ onbeforeunload p' = onbeforeunload sample_page.
Proof.
  split; [apply reachable_load|].
  apply (guard_written_on_input_and_submit_only sample_gettext
           sample_isValidText sample_page (sample_keypress 1 "Enter"));
    [apply reachable_load | discriminate | discriminate].
Defined.

Lemma quiet_events_witness :
  reachable sample_gettext sample_isValidText sample_page
  /\ exists p',
       dispatch sample_gettext sample_isValidText (sample_focus 4) sample_page
       = Some (p', sample_focus 4)
       /\ effects p' = effects sample_page.
Proof.
  split; [apply reachable_load|].
  apply (quiet_events sample_gettext sample_isValidText sample_page
           (sample_focus 4));
    [apply reachable_load | discriminate | discriminate | discriminate].
Defined.

Lemma transitionend_listener_unique_witness :
  awaiting_focus sample_page 4
  /\ (transitionend_listener 4 ∉ listeners sample_page)
  /\ exists p1 ev1,
       dispatch sample_gettext sample_isValidText (sample_focus 4) sample_page
       = Some (p1, ev1)
       /\ filter (fun l => l = transitionend_listener 4) (listeners p1)
          = [transitionend_listener 4].
Proof.
  assert (transitionend_listener 4 ∉ listeners sample_page) as Hnot.
  { refine (bool_decide_unpack _ _); vm_compute; exact I. }
  split; [vm_compute; reflexivity|]. split; [exact Hnot|].
  destruct (transitionend_listener_unique sample_gettext sample_isValidText 4
              (sample_focus 4) sample_page)
    as (p1 & ev1 & H1 & H2);
    [vm_compute; reflexivity | exact Hnot | reflexivity | reflexivity |].
  exists p1, ev1. split; [exact H1|]. apply H2, rtc_refl.
Defined.

Lemma loaded_input_reset_witness :
  matches sample_page 3 sel_input_invalid = true
  /\ exists p' ev' e',
       dispatch sample_gettext sample_isValidText (sample_event "input" 3)
         sample_page
       = Some (p', ev')
       /\ nodes p' !! 3 = Some e'
       /\ ("is-invalid" ∉ classList e').
Proof.
  split; [vm_compute; reflexivity|].
  apply (loaded_input_reset sample_gettext sample_isValidText
           (sample_document "merhaba<") 3 sample_page (sample_event "input" 3));
    [vm_compute; reflexivity | apply rtc_refl | reflexivity | reflexivity].
Defined.

Lemma activation_leaves_dom_alone_witness :
  reachable sample_gettext sample_isValidText sample_page
  /\ exists p' ev',
       dispatch sample_gettext sample_isValidText (sample_event "submit" 2)
         sample_page
       = Some (p', ev')
       /\ nodes p' = nodes sample_page /\ listeners p' = listeners sample_page.
Proof.
  split; [apply reachable_load|].
  apply (activation_leaves_dom_alone sample_gettext sample_isValidText
           sample_page (sample_event "submit" 2));
    [apply reachable_load | right; right; reflexivity].
Defined.

Lemma load_awaiting_focus_witness :
  matches (load (sample_document "merhaba<")) 4 sel_textarea_expandable = true
  /\ awaiting_focus (load (sample_document "merhaba<")) 4.
Proof.
  split; [vm_compute; reflexivity|].
  apply (load_awaiting_focus (sample_document "merhaba<") 4).
  vm_compute. reflexivity.
Defined.

Lemma dispatch_keeps_awaiting_witness :
  awaiting_focus sample_page 4
  /\ exists p' ev',
       dispatch sample_gettext sample_isValidText (sample_event "input" 4)
         sample_page
       = Some (p', ev')
       /\ awaiting_focus p' 4.
Proof.
  split; [vm_compute; reflexivity|].
  destruct (dispatch_total sample_gettext sample_isValidText
              (sample_event "input" 4) sample_page) as [[p' ev'] Hd].
  exists p', ev'. split; [exact Hd|].
  apply (dispatch_keeps_awaiting sample_gettext sample_isValidText 4
           (sample_event "input" 4) ev' sample_page p');
    [discriminate | vm_compute; reflexivity | exact Hd].
Defined.
